(** * Verification of the air-quality crawler [crawl_iqair.py]

    A shallow embedding of the validators, the DOM extractors, the page
    session driver and the CSV sink, followed by the properties proved
    about them.

    Conventions of the embedding.
    - A Python [str] is a [string]; a character is a code point below 256
      (Latin-1), so that ["176"%char] is the degree sign.  On that range
      the regular-expression class [\d] is exactly ['0'..'9'].
    - [None] is the absence marker: an [Optional[str]] is an
      [option string].
    - A Python exception is the [Raise] branch of [outcome]; [try/except]
      is [try_except].
    - [print] only logs and is left out. *)

From Stdlib Require Import ZArith NArith String Ascii List Lia Bool.
From Stdlib Require Import DecimalString DecimalN DecimalPos SpecFloat.
From stdpp Require Import gmap strings.

Open Scope N_scope.

(* ===================================================================== *)
(** ** Python strings                                                     *)
(* ===================================================================== *)

Definition code (c : ascii) : N := N_of_ascii c.

(** The class [\d] of [re] on text: the decimal digits. *)
Definition re_digit (c : ascii) : bool :=
  (48 <=? code c) && (code c <=? 57).

(** [str.isdigit] on one character: the decimal digits and the three
    superscript digits of Latin-1. *)
Definition char_isdigit (c : ascii) : bool :=
  re_digit c || (code c =? 178) || (code c =? 179) || (code c =? 185).

(** [str.isspace] on one character, which [str.strip] and the class [\s]
    both use. *)
Definition char_isspace (c : ascii) : bool :=
  ((9 <=? code c) && (code c <=? 13)) ||
  ((28 <=? code c) && (code c <=? 32)) ||
  (code c =? 133) || (code c =? 160).

Definition char_lower (c : ascii) : ascii :=
  if ((65 <=? code c) && (code c <=? 90)) ||
     ((192 <=? code c) && (code c <=? 222) && negb (code c =? 215))
  then ascii_of_N (code c + 32)
  else c.

(** [s.lower()] *)
Fixpoint lower (s : string) : string :=
  match s with
  | EmptyString => EmptyString
  | String c s' => String (char_lower c) (lower s')
  end.

Fixpoint lstrip (s : string) : string :=
  match s with
  | EmptyString => EmptyString
  | String c s' => if char_isspace c then lstrip s' else s
  end.

Fixpoint rstrip (s : string) : string :=
  match s with
  | EmptyString => EmptyString
  | String c s' =>
      match rstrip s' with
      | EmptyString => if char_isspace c then EmptyString else String c EmptyString
      | r => String c r
      end
  end.

(** [s.strip()] *)
Definition strip (s : string) : string := rstrip (lstrip s).

Fixpoint startswith (p s : string) : bool :=
  match p, s with
  | EmptyString, _ => true
  | String a p', String b s' => Ascii.eqb a b && startswith p' s'
  | String _ _, EmptyString => false
  end.

(** [p in s] on strings: [p] occurs in [s] as a substring. *)
Fixpoint str_in (p s : string) : bool :=
  startswith p s ||
  match s with
  | EmptyString => false
  | String _ s' => str_in p s'
  end.

(** [re.sub(cls, '', s)] for a pattern [cls] that is one character class:
    every character of the class is deleted. *)
Fixpoint re_sub_class (cls : ascii -> bool) (s : string) : string :=
  match s with
  | EmptyString => EmptyString
  | String c s' =>
      if cls c then re_sub_class cls s' else String c (re_sub_class cls s')
  end.

Fixpoint str_all (p : ascii -> bool) (s : string) : bool :=
  match s with
  | EmptyString => true
  | String c s' => p c && str_all p s'
  end.

(** Truth value of a string: non-empty. *)
Definition truthy (s : string) : bool :=
  match s with EmptyString => false | _ => true end.

(** [s.isdigit()] *)
Definition isdigit (s : string) : bool := truthy s && str_all char_isdigit s.

(** [str(n)] for a natural number. *)
Definition str_of_N (n : N) : string := NilZero.string_of_uint (N.to_uint n).

(** Value of a string of decimal digits, most significant first. *)
Fixpoint decimal_value (acc : N) (s : string) : N :=
  match s with
  | EmptyString => acc
  | String c s' => decimal_value (10 * acc + (code c - 48)) s'
  end.

(* ===================================================================== *)
(** ** Exceptions                                                         *)
(* ===================================================================== *)

Inductive exn : Type :=
  | ValueError | TypeError | AttributeError | PlaywrightError.

Inductive outcome (A : Type) : Type :=
  | Ok (a : A)
  | Raise (e : exn).
Arguments Ok {A} a.
Arguments Raise {A} e.

Definition bind {A B : Type} (m : outcome A) (k : A -> outcome B) : outcome B :=
  match m with
  | Ok a => k a
  | Raise e => Raise e
  end.

Notation "'let!' x ':=' m 'in' k" := (bind m (fun x => k))
  (at level 10, x name, m at level 100, k at level 200).
Notation "'let!' ' p ':=' m 'in' k" := (bind m (fun x => let 'p := x in k))
  (at level 10, p strict pattern, m at level 100, k at level 200).

(** [try: body  except handled: pass] followed by [return fallback]. *)
Definition try_except {A : Type} (handled : exn -> bool) (body : outcome A)
    (fallback : A) : outcome A :=
  match body with
  | Ok a => Ok a
  | Raise e => if handled e then Ok fallback else Raise e
  end.

(** [except (ValueError, TypeError, AttributeError)] *)
Definition value_type_attribute (e : exn) : bool :=
  match e with
  | ValueError | TypeError | AttributeError => true
  | _ => false
  end.

(** [except (ValueError, TypeError)] *)
Definition value_type (e : exn) : bool :=
  match e with
  | ValueError | TypeError => true
  | _ => false
  end.

(** [x.strip()] where [x] may be [None]: the attribute lookup on [None]
    raises [AttributeError]. *)
Definition strip_method (x : option string) : outcome string :=
  match x with
  | Some s => Ok (strip s)
  | None => Raise AttributeError
  end.

(** CPython's default limit on the number of digit characters [int] accepts
    ([sys.int_info.default_max_str_digits]); the program never changes it. *)
Definition int_max_str_digits : nat := 4300.

(** [int(s)] for a string without sign, blank or underscore. *)
Definition py_int (s : string) : outcome N :=
  if truthy s && str_all re_digit s then
    if Nat.ltb int_max_str_digits (String.length s) then Raise ValueError
    else Ok (decimal_value 0 s)
  else Raise ValueError.

(* ===================================================================== *)
(** ** The pollutant normalizer                                           *)
(* ===================================================================== *)

Definition normalize_pollutant_name (name : string) : string :=
  let name := lower name in
  if str_in "pm2.5" name then "pm25"
  else if str_in "pm10" name then "pm10"
  else if str_in "co" name then "co"
  else if str_in "so2" name then "so2"
  else if str_in "no2" name then "no2"
  else if str_in "o3" name then "o3"
  else strip name.

(* ===================================================================== *)
(** ** Regular expressions                                                *)
(* ===================================================================== *)

(** The patterns of the program use character classes, concatenation,
    alternation, options and repetition.  [re.match] on a pattern of the
    form [^body$] only asks whether the whole text is in the language of
    the body, so matching by derivatives decides it. *)
Inductive regex : Type :=
  | Void
  | Eps
  | Cls (p : ascii -> bool)
  | Cat (r1 r2 : regex)
  | Alt (r1 r2 : regex)
  | Star (r : regex).

Fixpoint nullable (r : regex) : bool :=
  match r with
  | Void => false
  | Eps => true
  | Cls _ => false
  | Cat r1 r2 => nullable r1 && nullable r2
  | Alt r1 r2 => nullable r1 || nullable r2
  | Star _ => true
  end.

Fixpoint deriv (c : ascii) (r : regex) : regex :=
  match r with
  | Void => Void
  | Eps => Void
  | Cls p => if p c then Eps else Void
  | Cat r1 r2 =>
      if nullable r1 then Alt (Cat (deriv c r1) r2) (deriv c r2)
      else Cat (deriv c r1) r2
  | Alt r1 r2 => Alt (deriv c r1) (deriv c r2)
  | Star r1 => Cat (deriv c r1) (Star r1)
  end.

Fixpoint fullmatch (r : regex) (s : string) : bool :=
  match s with
  | EmptyString => nullable r
  | String c s' => fullmatch (deriv c r) s'
  end.

Definition Chr (c : ascii) : regex := Cls (Ascii.eqb c).
Definition Opt (r : regex) : regex := Alt Eps r.
Definition Plus (r : regex) : regex := Cat r (Star r).

Fixpoint Lit (s : string) : regex :=
  match s with
  | EmptyString => Eps
  | String c s' => Cat (Chr c) (Lit s')
  end.

(** An optional newline. *)
Definition newline_re : regex := Opt (Chr "010").

(** [re.match('^' + body + '$', s)] succeeds: [$] stands at the end of the
    text or before a newline that ends it. *)
Definition re_match (body : regex) (s : string) : bool :=
  fullmatch (Cat body newline_re) s.

(** [\d+(\.\d+)?] *)
Definition number_re : regex :=
  Cat (Plus (Cls re_digit)) (Opt (Cat (Chr ".") (Plus (Cls re_digit)))).

(** [^\d+(\.\d+)?\s*(km/h|mph)$] *)
Definition wind_re : regex :=
  Cat number_re (Cat (Star (Cls char_isspace)) (Alt (Lit "km/h") (Lit "mph"))).

(** [^\d{1,3}%$] *)
Definition humidity_re : regex :=
  Cat (Cls re_digit)
      (Cat (Opt (Cls re_digit)) (Cat (Opt (Cls re_digit)) (Chr "%"))).

(** [^\d{1,2}$] *)
Definition uv_re : regex := Cat (Cls re_digit) (Opt (Cls re_digit)).

(** The longest prefix made of characters of a class, and what follows. *)
Fixpoint span_class (cls : ascii -> bool) (s : string) : string * string :=
  match s with
  | EmptyString => (EmptyString, EmptyString)
  | String c s' =>
      if cls c then let '(a, b) := span_class cls s' in (String c a, b)
      else (EmptyString, s)
  end.

(** [re.match(r'^\d+(\.\d+)?', s).group()]: the digits at the start of
    [s] and, when a dot and at least one digit follow, these too.  [None]
    when [s] does not start with a digit. *)
Definition leading_number (s : string) : option string :=
  let '(int_part, rest) := span_class re_digit s in
  if truthy int_part then
    match rest with
    | String c rest' =>
        if Ascii.eqb c "." then
          let '(frac, _) := span_class re_digit rest' in
          if truthy frac then Some (int_part +:+ "." +:+ frac) else Some int_part
        else Some int_part
    | EmptyString => Some int_part
    end
  else None.

(* ===================================================================== *)
(** ** Floating point                                                     *)
(* ===================================================================== *)

(** A Python [float] is an IEEE 754 binary64 number; the operations are
    those of [SpecFloat] at precision 53, rounding to nearest, ties to
    even. *)
Definition prec : Z := 53.
Definition emax : Z := 1024.

Definition float_of_Z (z : Z) : spec_float := binary_normalize prec emax z 0 false.
Definition fsub : spec_float -> spec_float -> spec_float := SFsub prec emax.
Definition fmul : spec_float -> spec_float -> spec_float := SFmul prec emax.
Definition fdiv : spec_float -> spec_float -> spec_float := SFdiv prec emax.
Definition flt : spec_float -> spec_float -> bool := SFltb.
Definition fle : spec_float -> spec_float -> bool := SFleb.

(** The binary64 number nearest to [(-1)^neg * n / 10^k]. *)
Definition float_of_scaled (neg : bool) (n : N) (k : N) : spec_float :=
  match n with
  | N0 => S754_zero neg
  | Npos m => SFdiv prec emax (S754_finite neg m 0%Z)
                              (S754_finite false (Z.to_pos (10 ^ Z.of_N k)) 0%Z)
  end.

(** [float(s)] for a text [s] made of digits, dots and minus signs, which
    is what both callers pass: an optional sign, then digits with at most
    one dot and at least one digit.  Anything else is a [ValueError]. *)
Definition py_float (s : string) : outcome spec_float :=
  let '(neg, body) :=
    match s with
    | String c s' => if Ascii.eqb c "-" then (true, s') else (false, s)
    | EmptyString => (false, s)
    end in
  let '(int_part, rest) := span_class re_digit body in
  let '(frac, rest') :=
    match rest with
    | String c r => if Ascii.eqb c "." then span_class re_digit r else (EmptyString, rest)
    | EmptyString => (EmptyString, rest)
    end in
  if truthy (int_part +:+ frac) && negb (truthy rest') then
    Ok (float_of_scaled neg (decimal_value 0 (int_part +:+ frac))
                        (N.of_nat (String.length frac)))
  else Raise ValueError.

(** Nearest integer to [num / den], ties to even. *)
Definition round_half_even (num : Z) (den : Z) : Z :=
  let q := (num / den)%Z in
  let r := (num mod den)%Z in
  match (2 * r ?= den)%Z with
  | Lt => q
  | Gt => (q + 1)%Z
  | Eq => if Z.even q then q else (q + 1)%Z
  end.

(** [f"{x:.1f}"]: the decimal with one fractional digit nearest to the
    exact value of [x], ties to even. *)
Definition format_1f (x : spec_float) : string :=
  match x with
  | S754_nan => "nan"
  | S754_infinity s => if s then "-inf" else "inf"
  | S754_zero s => (if s then "-" else EmptyString) +:+ "0.0"
  | S754_finite s m e =>
      let tenths :=
        match e with
        | Zneg p => round_half_even (10 * Zpos m) (2 ^ Zpos p)
        | _ => (10 * Zpos m * 2 ^ e)%Z
        end in
      (if s then "-" else EmptyString) +:+
      str_of_N (Z.to_N (tenths / 10)) +:+ "." +:+ str_of_N (Z.to_N (tenths mod 10))
  end.

(** The literal [1.60934]. *)
Definition mph_factor : spec_float :=
  Eval vm_compute in float_of_scaled false 160934 5.

(* ===================================================================== *)
(** ** The browser interface                                              *)
(* ===================================================================== *)

(** An element handle of the browser, by the four methods the program
    calls on it.  Every call may raise. *)
#[local] Set Warnings "-register-all".
Inductive Handle : Type := mkHandle {
  get_attribute : string -> outcome (option string);
  text_content : outcome (option string);
  query_selector : string -> outcome (option Handle);
  query_selector_all : string -> outcome (list Handle)
}.

Record Page : Type := mkPage {
  goto : string -> outcome unit;
  wait_for_load_state : string -> outcome unit;
  page_query_selector : string -> outcome (option Handle);
  page_query_selector_all : string -> outcome (list Handle)
}.

Record City : Type := mkCity {
  name : string;
  display_name : string;
  url : string
}.

(** What [validate_weather_condition] is called with: the page object on
    the first call, a text or [None] on the second. *)
Inductive pyvalue : Type :=
  | PyNone
  | PyStr (s : string)
  | PyPage (p : Page).

Definition opt_truthy (x : option string) : bool :=
  match x with
  | Some s => truthy s
  | None => false
  end.

(** [e.text_content().strip() if e else None] *)
Definition stripped_text_of (e : option Handle) : outcome (option string) :=
  match e with
  | Some h =>
      let! t := text_content h in
      let! s := strip_method t in
      Ok (Some s)
  | None => Ok None
  end.

(* ===================================================================== *)
(** ** Field validators                                                   *)
(* ===================================================================== *)

Definition validate_aqi (aqi_element : option Handle) : outcome (option string) :=
  try_except value_type_attribute
    match aqi_element with
    | None => Ok None
    | Some el =>
        let! title := get_attribute el "title" in
        let! aqi_value :=
          match title with
          | Some t => if truthy t then Ok t
                      else let! c := text_content el in strip_method c
          | None => let! c := text_content el in strip_method c
          end in
        let aqi_value := re_sub_class (fun c => negb (re_digit c)) aqi_value in
        if isdigit aqi_value then
          let! aqi_int := py_int aqi_value in
          if (0 <=? aqi_int) && (aqi_int <=? 500)
          then Ok (Some (str_of_N aqi_int))
          else Ok None
        else Ok None
    end
    None.

Definition validate_weather_condition (condition : pyvalue) : option string :=
  match condition with
  | PyStr s => if truthy s then Some (strip s) else None
  | PyNone => None
  | PyPage _ => None
  end.

Definition validate_wind_speed (wind_element : option Handle) : outcome (option string) :=
  try_except value_type_attribute
    match wind_element with
    | None => Ok None
    | Some el =>
        let! child_spans := query_selector_all el "span" in
        let! wind_speed :=
          match child_spans with
          | span0 :: others =>
              let! t0 := text_content span0 in
              let! wind_value := strip_method t0 in
              let! wind_unit :=
                match others with
                | span1 :: _ => let! t1 := text_content span1 in strip_method t1
                | [] => Ok "km/h"
                end in
              Ok (wind_value +:+ " " +:+ wind_unit)
          | [] => let! t := text_content el in strip_method t
          end in
        if re_match wind_re wind_speed then
          if str_in "mph" wind_speed then
            match leading_number wind_speed with
            | Some group =>
                let! value := py_float group in
                let km_value := fmul value mph_factor in
                Ok (Some (format_1f km_value +:+ " km/h"))
            | None => Raise AttributeError
            end
          else Ok (Some wind_speed)
        else Ok None
    end
    None.

Definition validate_humidity (humidity_element : option Handle) : outcome (option string) :=
  try_except value_type_attribute
    match humidity_element with
    | None => Ok None
    | Some el =>
        let! child_spans := query_selector_all el "span" in
        let! humidity_text :=
          match child_spans with
          | span0 :: _ =>
              let! t0 := text_content span0 in
              let! v := strip_method t0 in
              Ok (v +:+ "%")
          | [] => let! t := text_content el in strip_method t
          end in
        if re_match humidity_re humidity_text then Ok (Some humidity_text)
        else Ok None
    end
    None.

(** The degree sign, U+00B0. *)
Definition degree_sign : ascii := "176"%char.

Definition validate_temperature (temp : option string) : outcome (option string) :=
  try_except value_type
    match temp with
    | None => Ok None
    | Some temp =>
        if negb (truthy temp) then Ok None
        else
          let! temp_value :=
            py_float (re_sub_class
                        (fun c => negb (re_digit c || Ascii.eqb c "." || Ascii.eqb c "-"))
                        temp) in
          let temp_value :=
            if flt (float_of_Z 50) temp_value
            then fdiv (fmul (fsub temp_value (float_of_Z 32)) (float_of_Z 5)) (float_of_Z 9)
            else temp_value in
          if fle (float_of_Z (-50)) temp_value && fle temp_value (float_of_Z 50)
          then Ok (Some (format_1f temp_value +:+ String degree_sign "C"))
          else Ok None
    end
    None.

Definition validate_uv_index (uv_element : option Handle) : outcome (option string) :=
  try_except value_type_attribute
    match uv_element with
    | None => Ok None
    | Some el =>
        let! child_spans := query_selector_all el "span" in
        let! uv_text :=
          match child_spans with
          | span0 :: _ => let! t0 := text_content span0 in strip_method t0
          | [] => let! t := text_content el in strip_method t
          end in
        if re_match uv_re uv_text then
          let! uv_value := py_int uv_text in
          if (0 <=? uv_value) && (uv_value <=? 11)
          then Ok (Some (str_of_N uv_value))
          else Ok None
        else Ok None
    end
    None.

(* ===================================================================== *)
(** ** DOM extractors                                                     *)
(* ===================================================================== *)

Definition canonical_pollutants : list string :=
  ["pm25"; "pm10"; "co"; "so2"; "no2"; "o3"].

(** [for p in [...]: if p not in pollutant_data: pollutant_data[p] = "N/A"] *)
Definition fill_missing (pollutant_data : gmap string string) : gmap string string :=
  fold_left
    (fun d p => match d !! p with
                | Some _ => d
                | None => <[p := "N/A"]> d
                end)
    canonical_pollutants pollutant_data.

(** What one pollutant block is read for: the name, the value and the
    unit, each stripped, or [None] where the element is missing. *)
Definition read_block (element : Handle)
    : outcome (option string * option string * option string) :=
  let! name_element := query_selector element ".sensor-name" in
  let! name_text := stripped_text_of name_element in
  let! value_element := query_selector element "span.font-bold" in
  let! value_element :=
    match value_element with
    | Some e => Ok (Some e)
    | None => query_selector element "span"
    end in
  let! value_text := stripped_text_of value_element in
  let! unit_element := query_selector element ".sensor-unit" in
  let! unit_text := stripped_text_of unit_element in
  Ok (name_text, value_text, unit_text).

(** [re.sub(r'[^\d.]', '', value_text)] *)
Definition numeric_part (value_text : string) : string :=
  re_sub_class (fun c => negb (re_digit c || Ascii.eqb c ".")) value_text.

(** The body of the [try] for one pollutant block. *)
Definition pollutant_block (element : Handle) (pollutant_data : gmap string string)
    : outcome (gmap string string) :=
  let! '(name_text, value_text, unit_text) := read_block element in
  if opt_truthy name_text && opt_truthy value_text then
    let pollutant_key := normalize_pollutant_name (default EmptyString name_text) in
    let pollutant_value := numeric_part (default EmptyString value_text) in
    if truthy pollutant_value then
      Ok (<[pollutant_key :=
              if opt_truthy unit_text
              then pollutant_value +:+ " " +:+ default EmptyString unit_text
              else pollutant_value]> pollutant_data)
    else Ok pollutant_data
  else Ok pollutant_data.

(** The loop over the blocks: a block that raises is logged and skipped. *)
Fixpoint pollutant_loop (elements : list Handle) (pollutant_data : gmap string string)
    : gmap string string :=
  match elements with
  | [] => pollutant_data
  | element :: rest =>
      match pollutant_block element pollutant_data with
      | Ok d => pollutant_loop rest d
      | Raise _ => pollutant_loop rest pollutant_data
      end
  end.

Definition extract_pollutants (page : Page) : gmap string string :=
  match page_query_selector_all page ".major-pollutant" with
  | Ok pollutant_elements => fill_missing (pollutant_loop pollutant_elements ∅)
  | Raise _ => ∅
  end.

(** The body of the [try] for one component block. *)
Definition component_block (component : Handle) (weather_data : gmap string (option string))
    : outcome (gmap string (option string)) :=
  let! img_element := query_selector component "img" in
  match img_element with
  | Some img =>
      let! alt := get_attribute img "alt" in
      let! alt := strip_method alt in
      let img_alt := lower alt in
      let! value_elements := query_selector_all component "span" in
      match value_elements with
      | _ :: second :: _ =>
          let! t := text_content second in
          let! value_text := strip_method t in
          if str_in "humidity" img_alt then
            Ok (<["humidity" := Some value_text]> weather_data)
          else if str_in "wind speed" img_alt then
            Ok (<["wind_speed" := Some value_text]> weather_data)
          else if str_in "uv index" img_alt then
            Ok (<["uv_index" := Some value_text]> weather_data)
          else Ok weather_data
      | _ => Ok weather_data
      end
  | None => Ok weather_data
  end.

Fixpoint component_loop (components : list Handle) (weather_data : gmap string (option string))
    : gmap string (option string) :=
  match components with
  | [] => weather_data
  | component :: rest =>
      match component_block component weather_data with
      | Ok d => component_loop rest d
      | Raise _ => component_loop rest weather_data
      end
  end.

Definition extract_weather_components (page : Page) : gmap string (option string) :=
  let weather_data : gmap string (option string) :=
    <["humidity" := None]> (<["wind_speed" := None]> (<["uv_index" := None]> ∅)) in
  match page_query_selector_all page ".component" with
  | Ok components => component_loop components weather_data
  | Raise _ => weather_data
  end.

Definition extract_temperature (page : Page) : outcome (option string) :=
  let! temp_value_elem := page_query_selector page "span.text-\[2\.5rem\]" in
  let! temp_unit_elem := page_query_selector page "span.text-\[1\.7rem\]" in
  match temp_value_elem, temp_unit_elem with
  | Some v, Some u =>
      let! tv := text_content v in
      let! temp_value := strip_method tv in
      let! tu := text_content u in
      let! temp_unit := strip_method tu in
      Ok (Some (temp_value +:+ temp_unit))
  | _, _ => Ok None
  end.

(* ===================================================================== *)
(** ** Clock                                                              *)
(* ===================================================================== *)

(** A reading of the clock in the zone Asia/Bangkok, as [get_vietnam_time]
    returns it.  The zone has had the fixed offset +07:00 since 1920. *)
Record datetime : Type := mkDatetime {
  year : N;
  month : N;
  day : N;
  hour : N;
  minute : N;
  second : N;
  microsecond : N
}.

Fixpoint zeros (n : nat) : string :=
  match n with
  | O => EmptyString
  | S n' => String "0" (zeros n')
  end.

(** [f"{n:0wd}"] *)
Definition zero_padded (w : nat) (n : N) : string :=
  let s := str_of_N n in
  zeros (w - String.length s) +:+ s.

(** [now.isoformat()] *)
Definition isoformat (now : datetime) : string :=
  zero_padded 4 (year now) +:+ "-" +:+ zero_padded 2 (month now) +:+ "-" +:+
  zero_padded 2 (day now) +:+ "T" +:+ zero_padded 2 (hour now) +:+ ":" +:+
  zero_padded 2 (minute now) +:+ ":" +:+ zero_padded 2 (second now) +:+
  (if microsecond now =? 0 then EmptyString else "." +:+ zero_padded 6 (microsecond now)) +:+
  "+07:00".

(** [now.strftime('%b')] in the C locale, which the program never changes. *)
Definition strftime_b (now : datetime) : string :=
  match month now with
  | 1 => "Jan" | 2 => "Feb" | 3 => "Mar" | 4 => "Apr"
  | 5 => "May" | 6 => "Jun" | 7 => "Jul" | 8 => "Aug"
  | 9 => "Sep" | 10 => "Oct" | 11 => "Nov" | 12 => "Dec"
  | _ => EmptyString
  end.

(* ===================================================================== *)
(** ** The page session driver                                            *)
(* ===================================================================== *)

(** [weather_data.get(key)] *)
Definition dict_get (d : gmap string (option string)) (key : string) : option string :=
  default None (d !! key).

(** The body of the [try] of [crawl_city_data].  [now] is the clock reading
    taken for the timestamp. *)
Definition crawl_city_body (now : datetime) (page : Page) (city : City)
    : outcome (gmap string (option string)) :=
  let! _ := goto page (url city) in
  let! _ := wait_for_load_state page "networkidle" in
  let! aqi_element := page_query_selector page "span.font-extrabold" in
  let weather_condition := validate_weather_condition (PyPage page) in
  let! weather_condition :=
    if opt_truthy weather_condition then Ok weather_condition
    else
      let! wc_elem := page_query_selector page "span.condition-text" in
      let! weather_condition_raw :=
        match wc_elem with
        | Some e =>
            let! t := text_content e in
            Ok (match t with Some s => PyStr s | None => PyNone end)
        | None => Ok (PyStr EmptyString)
        end in
      Ok (validate_weather_condition weather_condition_raw) in
  let! temperature := extract_temperature page in
  let! temperature :=
    if opt_truthy temperature then Ok temperature
    else
      let! temp_elem :=
        page_query_selector page ".air-quality-forecast-container-weather__label" in
      let! temperature_raw :=
        match temp_elem with
        | Some e => text_content e
        | None => Ok (Some EmptyString)
        end in
      validate_temperature temperature_raw in
  let! aqi := validate_aqi aqi_element in
  let weather_data := extract_weather_components page in
  let pollutant_data := extract_pollutants page in
  let pollutant_data := fill_missing pollutant_data in
  Ok ((Some <$> pollutant_data) ∪
      <["timestamp" := Some (isoformat now)]>
      (<["city" := Some (display_name city)]>
      (<["aqi" := aqi]>
      (<["weather_condition" := weather_condition]>
      (<["wind_speed" := dict_get weather_data "wind_speed"]>
      (<["humidity" := dict_get weather_data "humidity"]>
      (<["temperature" := temperature]>
      (<["uv_index" := dict_get weather_data "uv_index"]> ∅)))))))).

(** [None] is the no-record result. *)
Definition crawl_city_data (now : datetime) (page : Page) (city : City)
    : option (gmap string (option string)) :=
  match crawl_city_body now page city with
  | Ok record => Some record
  | Raise _ => None
  end.

(* ===================================================================== *)
(** ** The CSV sink                                                       *)
(* ===================================================================== *)

Definition headers : list string :=
  ["timestamp"; "city"; "aqi"; "weather_condition"; "wind_speed"; "humidity";
   "temperature"; "uv_index"; "pm25"; "pm10"; "o3"; "no2"; "so2"; "co"].

(** The text between the occurrences of a separator. *)
Fixpoint split_on (sep : ascii) (s : string) : list string :=
  match s with
  | EmptyString => [EmptyString]
  | String c s' =>
      if Ascii.eqb c sep then EmptyString :: split_on sep s'
      else match split_on sep s' with
           | part :: parts => String c part :: parts
           | [] => [String c EmptyString]
           end
  end.

(** The parts of a relative [pathlib.Path]: empty parts and ["."] are
    dropped. *)
Definition path_parts (s : string) : list string :=
  List.filter (fun part => truthy part && negb (String.eqb part ".")) (split_on "/" s).

Fixpoint join_path (parts : list string) : string :=
  match parts with
  | [] => "."
  | [part] => part
  | part :: rest => part +:+ "/" +:+ join_path rest
  end.

(** Directories and files; a file is the list of its rows, a row the list
    of its cells.  Quoting of cells is not modelled. *)
Record filesystem : Type := mkFilesystem {
  dirs : gset string;
  files : gmap string (list (list string))
}.

(** [mkdir(parents=True, exist_ok=True)] *)
Fixpoint mkdir_parents (done todo : list string) (d : gset string) : gset string :=
  match todo with
  | [] => d
  | part :: rest =>
      mkdir_parents (done ++ [part]) rest ({[ join_path (done ++ [part]) ]} ∪ d)
  end.

(** [open(filepath, mode='a')]: the file is created when it is absent. *)
Definition open_append (fs : filesystem) (filepath : string) : filesystem :=
  match files fs !! filepath with
  | Some _ => fs
  | None => mkFilesystem (dirs fs) (<[filepath := []]> (files fs))
  end.

Definition append_row (fs : filesystem) (filepath : string) (row : list string)
    : filesystem :=
  mkFilesystem (dirs fs)
    (<[filepath := default [] (files fs !! filepath) ++ [row]]> (files fs)).

(** The cell [csv] writes for a value: [None] is written as the empty
    text. *)
Definition cell (v : option (option string)) : string :=
  match v with
  | Some (Some s) => s
  | Some None => EmptyString
  | None => EmptyString
  end.

(** [DictWriter.writerow]: a key outside the field names is a
    [ValueError]; a missing key is written as the empty text. *)
Definition dict_to_row (fieldnames : list string) (data : gmap string (option string))
    : outcome (list string) :=
  if bool_decide (dom data ⊆ list_to_set fieldnames)
  then Ok (map (fun key => cell (data !! key)) fieldnames)
  else Raise ValueError.

(** [now] is the clock reading [save_to_csv] takes itself.  The result is
    the file system after the call and the path returned, or the
    exception raised. *)
Definition save_to_csv (now : datetime) (data : gmap string (option string))
    (city_name : string) (fs : filesystem) : filesystem * outcome string :=
  let result_dir := path_parts ("result/" +:+ city_name) in
  let fs := mkFilesystem (mkdir_parents [] result_dir (dirs fs)) (files fs) in
  let filename :=
    "aqi_" +:+ city_name +:+ "_" +:+ str_of_N (year now) +:+ "_" +:+
    lower (strftime_b now) +:+ ".csv" in
  let filepath := join_path (result_dir ++ path_parts filename) in
  let file_exists := bool_decide (is_Some (files fs !! filepath)) in
  let fs := open_append fs filepath in
  let fs := if file_exists then fs else append_row fs filepath headers in
  match dict_to_row headers data with
  | Ok row => (append_row fs filepath row, Ok filepath)
  | Raise e => (fs, Raise e)
  end.

(* ===================================================================== *)
(** ** Pages used as examples                                             *)
(* ===================================================================== *)

(** An element with a text, no attribute and no descendant. *)
Definition text_node (s : string) : Handle :=
  mkHandle (fun _ => Ok None) (Ok (Some s)) (fun _ => Ok None) (fun _ => Ok []).

(** An element that left the document: every call on it raises. *)
Definition detached_node : Handle :=
  mkHandle (fun _ => Raise PlaywrightError) (Raise PlaywrightError)
           (fun _ => Raise PlaywrightError) (fun _ => Raise PlaywrightError).

(** An image with an [alt] text. *)
Definition img_node (alt : string) : Handle :=
  mkHandle (fun a => if String.eqb a "alt" then Ok (Some alt) else Ok None)
           (Ok (Some EmptyString)) (fun _ => Ok None) (fun _ => Ok []).

(** A [.major-pollutant] block with a name, a bold value and a unit. *)
Definition pollutant_entry (label value unit : string) : Handle :=
  mkHandle (fun _ => Ok None)
           (Ok (Some (label +:+ value +:+ unit)))
           (fun sel =>
              if String.eqb sel ".sensor-name" then Ok (Some (text_node label))
              else if String.eqb sel "span.font-bold" then Ok (Some (text_node value))
              else if String.eqb sel "span" then Ok (Some (text_node value))
              else if String.eqb sel ".sensor-unit" then Ok (Some (text_node unit))
              else Ok None)
           (fun sel =>
              if String.eqb sel "span" then Ok [text_node value] else Ok []).

(** A [.component] block: an image, a caption span and a value span. *)
Definition component_entry (alt caption value : string) : Handle :=
  mkHandle (fun _ => Ok None)
           (Ok (Some (caption +:+ value)))
           (fun sel =>
              if String.eqb sel "img" then Ok (Some (img_node alt))
              else if String.eqb sel "span" then Ok (Some (text_node caption))
              else Ok None)
           (fun sel =>
              if String.eqb sel "span" then Ok [text_node caption; text_node value]
              else Ok []).

(** A page that loads and holds an AQI figure, a temperature given as a
    value and a unit, and lists of component and pollutant blocks. *)
Definition static_page (aqi temp_value temp_unit : string)
    (components pollutants : list Handle) : Page :=
  mkPage (fun _ => Ok tt) (fun _ => Ok tt)
         (fun sel =>
            if String.eqb sel "span.font-extrabold" then Ok (Some (text_node aqi))
            else if String.eqb sel "span.text-\[2\.5rem\]" then Ok (Some (text_node temp_value))
            else if String.eqb sel "span.text-\[1\.7rem\]" then Ok (Some (text_node temp_unit))
            else Ok None)
         (fun sel =>
            if String.eqb sel ".component" then Ok components
            else if String.eqb sel ".major-pollutant" then Ok pollutants
            else Ok []).

(** A page whose navigation times out. *)
Definition unreachable_page : Page :=
  mkPage (fun _ => Raise PlaywrightError) (fun _ => Raise PlaywrightError)
         (fun _ => Raise PlaywrightError) (fun _ => Raise PlaywrightError).

Definition hanoi : City :=
  mkCity "hanoi" "Ha Noi" "https://www.aqi.in/dashboard/vietnam/ha-noi".

Definition empty_fs : filesystem := mkFilesystem ∅ ∅.

(* ===================================================================== *)
(** ** Notions used to state the properties                               *)
(* ===================================================================== *)

(** [p] occurs in [s]. *)
Definition Substring (p s : string) : Prop :=
  exists before after, s = before +:+ p +:+ after.

(** The texts a regular expression denotes. *)
Inductive lang : regex -> string -> Prop :=
  | lang_eps : lang Eps EmptyString
  | lang_cls p c : p c = true -> lang (Cls p) (String c EmptyString)
  | lang_cat r1 r2 s1 s2 :
      lang r1 s1 -> lang r2 s2 -> lang (Cat r1 r2) (s1 +:+ s2)
  | lang_alt_l r1 r2 s : lang r1 s -> lang (Alt r1 r2) s
  | lang_alt_r r1 r2 s : lang r2 s -> lang (Alt r1 r2) s
  | lang_star_nil r : lang (Star r) EmptyString
  | lang_star_more r s1 s2 :
      lang r s1 -> lang (Star r) s2 -> lang (Star r) (s1 +:+ s2).

(** The characters a regular expression can read. *)
Fixpoint alphabet (r : regex) (c : ascii) : bool :=
  match r with
  | Void | Eps => false
  | Cls p => p c
  | Cat r1 r2 | Alt r1 r2 => alphabet r1 c || alphabet r2 c
  | Star r1 => alphabet r1 c
  end.

(** The checks of the pollutant normalizer, in their order. *)
Definition pollutant_table : list (string * string) :=
  [("pm2.5", "pm25"); ("pm10", "pm10"); ("co", "co");
   ("so2", "so2"); ("no2", "no2"); ("o3", "o3")].

(** [first_match s table hit]: [hit] is the key of the first entry of
    [table] whose pattern occurs in [s], if there is one. *)
Inductive first_match (s : string) : list (string * string) -> option string -> Prop :=
  | first_match_none : first_match s [] None
  | first_match_here pattern key rest :
      Substring pattern s -> first_match s ((pattern, key) :: rest) (Some key)
  | first_match_later pattern key rest hit :
      ~ Substring pattern s -> first_match s rest hit ->
      first_match s ((pattern, key) :: rest) hit.

(** The raw text the AQI validator works on: the [title] attribute when it
    is there and not empty, else the visible text, stripped. *)
Inductive aqi_raw (el : Handle) : string -> Prop :=
  | aqi_raw_title t :
      get_attribute el "title" = Ok (Some t) -> truthy t = true -> aqi_raw el t
  | aqi_raw_text title c :
      get_attribute el "title" = Ok title -> opt_truthy title = false ->
      text_content el = Ok (Some c) -> aqi_raw el (strip c).

(** A raw text after stripping its non-digit characters. *)
Definition stripped_digits (raw : string) : string :=
  re_sub_class (fun c => negb (re_digit c)) raw.

(** A raw temperature after stripping everything but digits, dots and
    minus signs. *)
Definition temperature_chars (temp : string) : string :=
  re_sub_class (fun c => negb (re_digit c || Ascii.eqb c "." || Ascii.eqb c "-")) temp.

(** A parsed value above 50 is taken for degrees Fahrenheit and converted
    by (v - 32) * 5 / 9; any other value is kept. *)
Definition to_celsius (v : spec_float) : spec_float :=
  if flt (float_of_Z 50) v
  then fdiv (fmul (fsub v (float_of_Z 32)) (float_of_Z 5)) (float_of_Z 9)
  else v.

Definition in_celsius_range (c : spec_float) : bool :=
  fle (float_of_Z (-50)) c && fle c (float_of_Z 50).

(** A text printed with one decimal place: an optional minus sign, digits,
    a dot and one digit. *)
Definition one_decimal (s : string) : Prop :=
  exists sign whole d,
    s = sign +:+ whole +:+ "." +:+ String d EmptyString /\
    (sign = EmptyString \/ sign = "-") /\
    truthy whole = true /\ str_all re_digit whole = true /\ re_digit d = true.

(** The raw text the wind-speed validator works on: the stripped text of
    the element when it has no span; else the stripped text of the first
    span, a blank, and the stripped text of the second span, or ["km/h"]
    when there is only one. *)
Inductive wind_text (el : Handle) : string -> Prop :=
  | wind_text_plain c :
      query_selector_all el "span" = Ok [] ->
      text_content el = Ok (Some c) ->
      wind_text el (strip c)
  | wind_text_value span0 v :
      query_selector_all el "span" = Ok [span0] ->
      text_content span0 = Ok (Some v) ->
      wind_text el (strip v +:+ " " +:+ "km/h")
  | wind_text_value_unit span0 span1 others v u :
      query_selector_all el "span" = Ok (span0 :: span1 :: others) ->
      text_content span0 = Ok (Some v) ->
      text_content span1 = Ok (Some u) ->
      wind_text el (strip v +:+ " " +:+ strip u).

(** A number, optional blanks and the given unit. *)
Definition number_with_unit (unit : string) : regex :=
  Cat number_re (Cat (Star (Cls char_isspace)) (Lit unit)).

Fixpoint str_any (p : ascii -> bool) (s : string) : bool :=
  match s with
  | EmptyString => false
  | String c s' => p c || str_any p s'
  end.

(** What a pollutant block stores for a value text and a unit text. *)
Definition stored_value (value_text : string) (unit_text : option string) : string :=
  if opt_truthy unit_text
  then numeric_part value_text +:+ " " +:+ default EmptyString unit_text
  else numeric_part value_text.

(** The path of the output file for a clock reading and a city slug, as
    [save_to_csv] builds it. *)
Definition output_path (now : datetime) (city_name : string) : string :=
  join_path
    (path_parts ("result/" +:+ city_name) ++
     path_parts ("aqi_" +:+ city_name +:+ "_" +:+ str_of_N (year now) +:+ "_" +:+
                 lower (strftime_b now) +:+ ".csv")).

(** A text that is one component of a path. *)
Definition path_component (s : string) : Prop :=
  truthy s = true /\ s <> "." /\
  str_all (fun c => negb (Ascii.eqb c "/")) s = true.

(** The rows one call of the sink adds for a record. *)
Definition data_rows (data : gmap string (option string)) : list (list string) :=
  match dict_to_row headers data with
  | Ok row => [row]
  | Raise _ => []
  end.

(** The path as the specification words it, with the year and the month
    read from the [timestamp] field of the record, an ISO 8601 text. *)
Definition month_of_digits (mm : string) : option string :=
  if String.eqb mm "01" then Some "jan" else if String.eqb mm "02" then Some "feb"
  else if String.eqb mm "03" then Some "mar" else if String.eqb mm "04" then Some "apr"
  else if String.eqb mm "05" then Some "may" else if String.eqb mm "06" then Some "jun"
  else if String.eqb mm "07" then Some "jul" else if String.eqb mm "08" then Some "aug"
  else if String.eqb mm "09" then Some "sep" else if String.eqb mm "10" then Some "oct"
  else if String.eqb mm "11" then Some "nov" else if String.eqb mm "12" then Some "dec"
  else None.

Definition path_from_timestamp (data : gmap string (option string)) (city_name : string)
    : option string :=
  match data !! "timestamp" with
  | Some (Some ts) =>
      match month_of_digits (String.substring 5 2 ts) with
      | Some mon =>
          Some ("result/" +:+ city_name +:+ "/aqi_" +:+ city_name +:+ "_" +:+
                String.substring 0 4 ts +:+ "_" +:+ mon +:+ ".csv")
      | None => None
      end
  | _ => None
  end.

(** A page with a humidity of "abc", a wind speed in mph, a UV index of
    99 and a temperature in degrees Fahrenheit. *)
Definition unvalidated_page : Page :=
  static_page "42" "85" (String degree_sign "F")
    [component_entry "Humidity" "Humidity" "abc";
     component_entry "Wind Speed" "Wind" "12 mph";
     component_entry "UV Index" "UV" "99"]
    [pollutant_entry "PM2.5" "12.5" "ug/m3"].

(** A page with a pollutant block labelled "Radon". *)
Definition radon_page : Page :=
  static_page "42" "20" (String degree_sign "C") []
    [pollutant_entry "PM2.5" "12.5" "ug/m3"; pollutant_entry "Radon" "7" "Bq/m3"].

(** A page with a pollutant block labelled "City". *)
Definition city_block_page : Page :=
  static_page "42" "20" (String degree_sign "C") []
    [pollutant_entry "PM2.5" "12.5" "ug/m3"; pollutant_entry "City" "9" "x"].

(** A page with a block that raises between two sound blocks. *)
Definition faulty_block_page : Page :=
  static_page "42" "20" (String degree_sign "C") []
    [pollutant_entry "PM2.5" "12.5" "ug/m3"; detached_node;
     pollutant_entry "NO2" "3" "ppb"].

Definition plain_page : Page :=
  static_page "42" "20" (String degree_sign "C") [] [].

Definition january_clock : datetime := mkDatetime 2024 1 31 23 59 59 0.
Definition february_clock : datetime := mkDatetime 2024 2 1 0 0 1 0.

(** The eight fields the driver sets itself. *)
Definition driver_fields (timestamp city aqi condition wind humidity temperature uv
                          : option string) : gmap string (option string) :=
  <["timestamp" := timestamp]>
  (<["city" := city]>
  (<["aqi" := aqi]>
  (<["weather_condition" := condition]>
  (<["wind_speed" := wind]>
  (<["humidity" := humidity]>
  (<["temperature" := temperature]>
  (<["uv_index" := uv]> ∅))))))).

(** The records the driver returns for two of the pages above. *)
Definition plain_record : gmap string (option string) :=
  default ∅ (crawl_city_data january_clock plain_page hanoi).

Definition radon_record : gmap string (option string) :=
  default ∅ (crawl_city_data january_clock radon_page hanoi).

Definition month_names : list string :=
  ["jan"; "feb"; "mar"; "apr"; "may"; "jun";
   "jul"; "aug"; "sep"; "oct"; "nov"; "dec"].

Definition city_block_record : gmap string (option string) :=
  default ∅ (crawl_city_data january_clock city_block_page hanoi).

Definition unvalidated_record : gmap string (option string) :=
  default ∅ (crawl_city_data january_clock unvalidated_page hanoi).

(* ===================================================================== *)
(** ** The run orchestrator                                               *)
(* ===================================================================== *)

(** The city table.  The display names lie outside Latin-1; they are kept
    as their UTF-8 bytes, which is sound because the program only copies
    them. *)
Definition CITIES : list City :=
  [mkCity "hanoi" "Hà Nội" "https://www.aqi.in/dashboard/vietnam/ha-noi";
   mkCity "ho-chi-minh-city" "Hồ Chí Minh" "https://www.aqi.in/dashboard/vietnam/ho-chi-minh";
   mkCity "da-nang" "Đà Nẵng" "https://www.aqi.in/vi/dashboard/vietnam/da-nang";
   mkCity "hai-phong" "Hải Phòng" "https://www.aqi.in/vi/dashboard/vietnam/hai-phong";
   mkCity "nghe-an" "Nghệ An" "https://www.aqi.in/vi/dashboard/vietnam/nghe-an";
   mkCity "son-la" "Sơn La" "https://www.aqi.in/vi/dashboard/vietnam/son-la";
   mkCity "bac-ninh" "Bắc Ninh" "https://www.aqi.in/vi/dashboard/vietnam/bac-ninh"].

(** What the outside world gives one pass of the loop of
    [crawl_all_cities]: the page obtained from [sync_playwright], [launch],
    [new_page], [set_viewport_size] and [set_default_timeout], or the
    exception one of them raises, and the two clock readings, of
    [crawl_city_data] and of [save_to_csv].  [browser.close] changes
    neither the results nor the files and is left out. *)
Record Session : Type := mkSession {
  new_page : outcome Page;
  crawl_time : datetime;
  save_time : datetime
}.

(** One pass of the loop: the files and the result list after it. *)
Definition visit_city (city : City) (session : Session)
    (state : filesystem * list (gmap string (option string)))
    : filesystem * list (gmap string (option string)) :=
  let '(fs, results) := state in
  match new_page session with
  | Raise _ => (fs, results)
  | Ok page =>
      match crawl_city_data (crawl_time session) page city with
      | Some data =>
          if bool_decide (data = ∅) then (fs, results)
          else
            (fst (save_to_csv (save_time session) data (name city) fs),
             results ++ [data])
      | None => (fs, results)
      end
  end.

Fixpoint crawl_cities (visits : list (City * Session))
    (state : filesystem * list (gmap string (option string)))
    : filesystem * list (gmap string (option string)) :=
  match visits with
  | [] => state
  | (city, session) :: rest => crawl_cities rest (visit_city city session state)
  end.

(** [world] gives the session each city meets; the run starts from the
    files [fs] and an empty result list. *)
Definition crawl_all_cities (world : City -> Session) (fs : filesystem)
    : filesystem * list (gmap string (option string)) :=
  crawl_cities (map (fun city => (city, world city)) CITIES) (fs, []).

(* ===================================================================== *)
(** ** Further notions used to state the properties                      *)
(* ===================================================================== *)

(** The raw text the humidity validator works on: the stripped text of
    the first span followed by a percent sign, or, without a span, the
    stripped text of the element. *)
Inductive humidity_text (el : Handle) : string -> Prop :=
  | humidity_text_plain c :
      query_selector_all el "span" = Ok [] ->
      text_content el = Ok (Some c) ->
      humidity_text el (strip c)
  | humidity_text_span span0 others v :
      query_selector_all el "span" = Ok (span0 :: others) ->
      text_content span0 = Ok (Some v) ->
      humidity_text el (strip v +:+ "%").

(** The raw text the UV validator works on: the stripped text of the
    first span, or, without a span, of the element. *)
Inductive uv_text (el : Handle) : string -> Prop :=
  | uv_text_plain c :
      query_selector_all el "span" = Ok [] ->
      text_content el = Ok (Some c) ->
      uv_text el (strip c)
  | uv_text_span span0 others v :
      query_selector_all el "span" = Ok (span0 :: others) ->
      text_content span0 = Ok (Some v) ->
      uv_text el (strip v).

(** The three slots of the weather components. *)
Definition weather_slots : list string := ["humidity"; "wind_speed"; "uv_index"].

(** A file whose first row is the header and whose rows all have as many
    cells as the header. *)
Definition well_formed_rows (rows : list (list string)) : Prop :=
  (exists tail, rows = headers :: tail) /\
  Forall (fun row => length row = length headers) rows.

Definition well_formed_files (fs : filesystem) : Prop :=
  forall path rows, files fs !! path = Some rows -> well_formed_rows rows.

(** A clock reading whose month is one of the twelve. *)
Definition valid_month (now : datetime) : Prop := 1 <= month now <= 12.

(** A page with its two list queries replaced. *)
Definition with_lists (inner : Page) (components pollutants : outcome (list Handle))
    : Page :=
  mkPage (goto inner) (wait_for_load_state inner) (page_query_selector inner)
         (fun sel =>
            if String.eqb sel ".component" then components
            else if String.eqb sel ".major-pollutant" then pollutants
            else page_query_selector_all inner sel).

(** A float that is a zero, a finite number or an infinity of the given
    sign. *)
Definition has_sign (neg : bool) (x : spec_float) : Prop :=
  match x with
  | S754_zero s | S754_infinity s | S754_finite s _ _ => s = neg
  | S754_nan => False
  end.

(** The slot a component block fills for the lowered, stripped [alt] text
    of its image: the first of humidity, wind speed and uv index that the
    text names. *)
Definition slot_of_alt (img_alt : string) : option string :=
  if str_in "humidity" img_alt then Some "humidity"
  else if str_in "wind speed" img_alt then Some "wind_speed"
  else if str_in "uv index" img_alt then Some "uv_index"
  else None.

(** A component block read without an exception: its image has the [alt]
    text [alt], and its second span has the text [value]. *)
Definition component_reads (component : Handle) (alt value : string) : Prop :=
  exists img span0 span1 others,
    query_selector component "img" = Ok (Some img) /\
    get_attribute img "alt" = Ok (Some alt) /\
    query_selector_all component "span" = Ok (span0 :: span1 :: others) /\
    text_content span1 = Ok (Some value).

(** The number of the month a lower-case month name stands for: its
    position in the list of names, counted from one. *)
Fixpoint position_from (n : N) (text : string) (names : list string) : N :=
  match names with
  | [] => 0
  | first :: rest =>
      if String.eqb text first then n else position_from (N.succ n) text rest
  end.

Definition month_number (text : string) : N := position_from 1 text month_names.

(** What one pass of the loop of [crawl_all_cities] gets from the driver:
    the record, or nothing when the browser or the driver failed. *)
Definition city_record (city : City) (session : Session)
    : option (gmap string (option string)) :=
  match new_page session with
  | Ok page => crawl_city_data (crawl_time session) page city
  | Raise _ => None
  end.

(** The first city of the table, a world in which every city shows the
    same page and the clock reads the same times, and the record that
    city yields there. *)
Definition ha_noi : City :=
  mkCity "hanoi" "Hà Nội" "https://www.aqi.in/dashboard/vietnam/ha-noi".

Definition steady_world (city : City) : Session :=
  mkSession (Ok plain_page) january_clock february_clock.

Definition ha_noi_record : gmap string (option string) :=
  default ∅ (crawl_city_data january_clock plain_page ha_noi).
(* ===================================================================== *)
(** * Properties                                                          *)
(* ===================================================================== *)

(** ** Strings *)

Lemma append_cons c a b : String c a +:+ b = String c (a +:+ b).
Proof. reflexivity. Qed.

Lemma append_nil_l s : EmptyString +:+ s = s.
Proof. reflexivity. Qed.

Lemma append_nil_r s : s +:+ EmptyString = s.
Proof. induction s as [|c s IH]; [reflexivity|]. rewrite append_cons, IH. reflexivity. Qed.

Lemma append_assoc a b c : (a +:+ b) +:+ c = a +:+ (b +:+ c).
Proof.
  induction a as [|x a IH]; [reflexivity|].
  rewrite !append_cons, IH. reflexivity.
Qed.

Lemma append_eq_nil a b : a +:+ b = EmptyString -> a = EmptyString /\ b = EmptyString.
Proof. destruct a; [rewrite append_nil_l; auto | rewrite append_cons; discriminate]. Qed.

Lemma ascii_eqb_true a b : Ascii.eqb a b = true <-> a = b.
Proof. apply Ascii.eqb_eq. Qed.

Lemma startswith_spec p s : startswith p s = true <-> exists rest, s = p +:+ rest.
Proof.
  revert s. induction p as [|a p IH]; intros s; simpl.
  - split; [intros _; exists s; reflexivity | reflexivity].
  - destruct s as [|b s].
    + split; [discriminate | intros [rest H]; rewrite append_cons in H; discriminate].
    + rewrite andb_true_iff, ascii_eqb_true, IH. split.
      * intros [-> [rest ->]]. exists rest. reflexivity.
      * intros [rest H]. rewrite append_cons in H. injection H as -> ->. eauto.
Qed.

Lemma str_in_spec p s : str_in p s = true <-> Substring p s.
Proof.
  unfold Substring. induction s as [|c s IH].
  - simpl. rewrite orb_false_r, startswith_spec. split.
    + intros [rest H]. exists EmptyString, rest. exact H.
    + intros [before [after H]]. symmetry in H.
      apply append_eq_nil in H as [-> H].
      exists after. symmetry. exact H.
  - cbn [str_in]. rewrite orb_true_iff, startswith_spec, IH. split.
    + intros [[rest H] | [before [after H]]].
      * exists EmptyString, rest. exact H.
      * exists (String c before), after. rewrite append_cons, H. reflexivity.
    + intros [[|x before] [after H]].
      * left. exists after. exact H.
      * right. rewrite append_cons in H. injection H as -> H. eauto.
Qed.

Lemma str_in_false p s : str_in p s = false <-> ~ Substring p s.
Proof. rewrite <- str_in_spec. destruct (str_in p s); split; congruence. Qed.

(** ** Regular expressions *)

Lemma nullable_lang r : nullable r = true <-> lang r EmptyString.
Proof.
  induction r as [| |p|r1 IH1 r2 IH2|r1 IH1 r2 IH2|r IH]; simpl.
  - split; [discriminate | intros H; inversion H].
  - split; [constructor | reflexivity].
  - split; [discriminate | intros H; inversion H].
  - rewrite andb_true_iff, IH1, IH2. split.
    + intros [H1 H2]. change EmptyString with (EmptyString +:+ EmptyString). constructor; assumption.
    + intros H. inversion H as [| |? ? s1 s2 H1 H2| | | |]; subst.
      match goal with E : _ +:+ _ = EmptyString |- _ => apply append_eq_nil in E as [-> ->] end.
      auto.
  - rewrite orb_true_iff, IH1, IH2. split.
    + intros [H|H]; [apply lang_alt_l | apply lang_alt_r]; exact H.
    + intros H. inversion H; subst; auto.
  - split; [constructor | reflexivity].
Qed.

Lemma lang_deriv_sound c r : forall s, lang (deriv c r) s -> lang r (String c s).
Proof.
  induction r as [| |p|r1 IH1 r2 IH2|r1 IH1 r2 IH2|r IH]; simpl; intros s H.
  - inversion H.
  - inversion H.
  - destruct (p c) eqn:E; inversion H; subst. constructor. exact E.
  - destruct (nullable r1) eqn:N.
    + inversion H as [| | |? ? ? H1| ? ? ? H2| |]; subst.
      * inversion H1; subst. rewrite <- append_cons. constructor; auto.
      * change (String c s) with (EmptyString +:+ String c s).
        constructor; [apply nullable_lang; exact N | auto].
    + inversion H; subst. rewrite <- append_cons. constructor; auto.
  - inversion H; subst; [apply lang_alt_l | apply lang_alt_r]; auto.
  - inversion H; subst. rewrite <- append_cons. apply lang_star_more; auto.
Qed.

Lemma lang_deriv_complete r t :
  lang r t -> forall c s, t = String c s -> lang (deriv c r) s.
Proof.
  induction 1 as [|p x Hp|r1 r2 s1 s2 H1 IH1 H2 IH2|r1 r2 s0 H IH|r1 r2 s0 H IH
                 |r|r s1 s2 H1 IH1 H2 IH2]; intros c s E; simpl.
  - discriminate.
  - injection E as -> <-. rewrite Hp. constructor.
  - destruct s1 as [|x s1].
    + rewrite append_nil_l in E.
      assert (N : nullable r1 = true) by (apply nullable_lang; exact H1).
      rewrite N. apply lang_alt_r. eauto.
    + rewrite append_cons in E. injection E as -> <-.
      destruct (nullable r1); [apply lang_alt_l|]; constructor; eauto.
  - apply lang_alt_l. eauto.
  - apply lang_alt_r. eauto.
  - discriminate.
  - destruct s1 as [|x s1].
    + rewrite append_nil_l in E. eauto.
    + rewrite append_cons in E. injection E as -> <-.
      constructor; eauto.
Qed.

Lemma fullmatch_lang r s : fullmatch r s = true <-> lang r s.
Proof.
  revert r. induction s as [|c s IH]; intros r; simpl.
  - apply nullable_lang.
  - rewrite IH. split.
    + apply lang_deriv_sound.
    + intros H. eapply lang_deriv_complete; eauto.
Qed.

(** ** The pollutant normalizer *)

Lemma first_match_decide s table :
  first_match s table
    (snd <$> List.find (fun entry => str_in (fst entry) s) table).
Proof.
  induction table as [|[pattern key] rest IH]; simpl.
  - constructor.
  - destruct (str_in pattern s) eqn:E; simpl.
    + apply first_match_here, str_in_spec, E.
    + apply first_match_later; [apply str_in_false, E | exact IH].
Qed.

Lemma first_match_unique s table hit1 hit2 :
  first_match s table hit1 -> first_match s table hit2 -> hit1 = hit2.
Proof.
  induction 1; inversion 1; subst; auto; contradiction.
Qed.

Lemma char_lower_idempotent c : char_lower (char_lower c) = char_lower c.
Proof. destruct c as [[] [] [] [] [] [] [] []]; reflexivity. Qed.

Lemma lower_idempotent s : lower (lower s) = lower s.
Proof.
  induction s as [|c s IH]; simpl; [reflexivity|].
  rewrite char_lower_idempotent, IH. reflexivity.
Qed.

Lemma normalize_pollutant_name_table label :
  normalize_pollutant_name label =
  match snd <$> List.find (fun entry => str_in (fst entry) (lower label)) pollutant_table with
  | Some key => key
  | None => strip (lower label)
  end.
Proof.
  unfold normalize_pollutant_name, pollutant_table. simpl.
  repeat match goal with
         | |- context [if str_in ?p ?s then _ else _] => destruct (str_in p s); simpl; try reflexivity
         end.
Qed.

Lemma normalize_pollutant_name_case label :
  normalize_pollutant_name (lower label) = normalize_pollutant_name label.
Proof. unfold normalize_pollutant_name. rewrite lower_idempotent. reflexivity. Qed.

(** C5.  The pollutant normalizer lowers the label and takes the key of the
    first of the patterns pm2.5, pm10, co, so2, no2, o3 that occurs in it;
    a label in which none occurs is mapped to its lowered, stripped text.
    "PM2.5" gives pm25, "NO2 " gives no2 and "Radon" gives radon. *)
Theorem normalize_pollutant_name_first_match :
  (forall label, exists hit,
      first_match (lower label) pollutant_table hit /\
      normalize_pollutant_name label =
        match hit with
        | Some key => key
        | None => strip (lower label)
        end) /\
  normalize_pollutant_name "PM2.5" = "pm25" /\
  normalize_pollutant_name "NO2 " = "no2" /\
  normalize_pollutant_name "Radon" = "radon".
Proof.
  split; [|repeat split; reflexivity].
  intros label. eexists. split.
  - apply first_match_decide.
  - apply normalize_pollutant_name_table.
Qed.

(** ** The AQI validator *)

Lemma stripped_digits_all raw : str_all re_digit (stripped_digits raw) = true.
Proof.
  unfold stripped_digits. induction raw as [|c raw IH]; simpl; [reflexivity|].
  destruct (re_digit c) eqn:E; simpl; [rewrite E|]; exact IH.
Qed.

Lemma str_all_weaken (p q : ascii -> bool) s :
  (forall c, p c = true -> q c = true) -> str_all p s = true -> str_all q s = true.
Proof.
  intros Hpq. induction s as [|c s IH]; simpl; [reflexivity|].
  rewrite !andb_true_iff. intros [H1 H2]. auto.
Qed.

Lemma isdigit_stripped raw : isdigit (stripped_digits raw) = truthy (stripped_digits raw).
Proof.
  unfold isdigit. rewrite (str_all_weaken re_digit char_isdigit).
  - apply andb_true_r.
  - intros c H. unfold char_isdigit. rewrite H. reflexivity.
  - apply stripped_digits_all.
Qed.

(** The value the validator returns for a raw text. *)
Lemma validate_aqi_of_raw el raw :
  aqi_raw el raw ->
  (String.length (stripped_digits raw) <= int_max_str_digits)%nat ->
  validate_aqi (Some el) =
  Ok (if truthy (stripped_digits raw) && (decimal_value 0 (stripped_digits raw) <=? 500)
      then Some (str_of_N (decimal_value 0 (stripped_digits raw)))
      else None).
Proof.
  intros Hraw Hlen.
  assert (Hgo : forall v, v = raw ->
    try_except value_type_attribute
      (let aqi_value := re_sub_class (fun c => negb (re_digit c)) v in
       if isdigit aqi_value then
         let! aqi_int := py_int aqi_value in
         if (0 <=? aqi_int) && (aqi_int <=? 500)
         then Ok (Some (str_of_N aqi_int)) else Ok None
       else Ok None) None =
    Ok (if truthy (stripped_digits raw) && (decimal_value 0 (stripped_digits raw) <=? 500)
        then Some (str_of_N (decimal_value 0 (stripped_digits raw)))
        else None)).
  { intros v ->. cbv zeta. fold (stripped_digits raw).
    rewrite isdigit_stripped. destruct (truthy (stripped_digits raw)) eqn:T; simpl; [|reflexivity].
    unfold py_int. rewrite T, stripped_digits_all. simpl andb. cbv iota.
    apply Nat.ltb_ge in Hlen. rewrite Hlen. simpl.
    rewrite (proj2 (N.leb_le 0 _) (N.le_0_l _)).
    destruct (decimal_value 0 (stripped_digits raw) <=? 500); reflexivity. }
  unfold validate_aqi.
  destruct Hraw as [t Ht Tt | title c Ht Tt Hc].
  - rewrite Ht. simpl. rewrite Tt. simpl. apply Hgo. reflexivity.
  - rewrite Ht. simpl.
    destruct title as [t|]; simpl in Tt; [rewrite Tt|]; rewrite Hc; simpl; apply Hgo; reflexivity.
Qed.

(** C2 fails on the code.  The raw text "-1" is not rejected: the
    validator returns "1" for it, not the absence marker.  The pattern
    that removes the non-digit characters removes the minus sign too, so
    the lower bound of the range test that follows can never fail: a raw
    text and the same text with a minus sign before it always get the
    same result.  The other examples are as stated: "501" and "abc" give
    the absence marker and "42" gives "42". *)
Theorem validate_aqi_accepts_negative :
  validate_aqi (Some (text_node "-1")) = Ok (Some "1") /\
  validate_aqi (Some (text_node "-1")) <> Ok None /\
  (forall el signed raw,
      aqi_raw el raw ->
      aqi_raw signed (String "-" raw) ->
      (String.length (stripped_digits raw) <= int_max_str_digits)%nat ->
      validate_aqi (Some signed) = validate_aqi (Some el)) /\
  validate_aqi (Some (text_node "501")) = Ok None /\
  validate_aqi (Some (text_node "abc")) = Ok None /\
  validate_aqi (Some (text_node "42")) = Ok (Some "42").
Proof.
  split; [vm_compute; reflexivity|].
  split; [vm_compute; discriminate|].
  split; [|repeat split; vm_compute; reflexivity].
  intros el signed raw Hraw Hsigned Hlen.
  rewrite (validate_aqi_of_raw signed (String "-" raw) Hsigned Hlen).
  rewrite (validate_aqi_of_raw el raw Hraw Hlen).
  reflexivity.
Qed.

(** ** Decimal printing *)

Lemma string_of_uint_digits d :
  str_all re_digit (NilEmpty.string_of_uint d) = true.
Proof. induction d; simpl; auto. Qed.

Lemma str_of_N_digits n :
  truthy (str_of_N n) = true /\ str_all re_digit (str_of_N n) = true.
Proof.
  unfold str_of_N, NilZero.string_of_uint.
  destruct (N.to_uint n) eqn:E; simpl; try (split; [reflexivity|]);
    try apply string_of_uint_digits; reflexivity.
Qed.

(** A property of the numbers below a bound, from its instances. *)
Lemma below_bound_cases (P : N -> Prop) (bound : nat) :
  (forall i, (i < bound)%nat -> P (N.of_nat i)) ->
  forall n, n < N.of_nat bound -> P n.
Proof.
  intros H n Hn. rewrite <- (N2Nat.id n). apply H. lia.
Qed.

Lemma str_of_N_one_digit n :
  n < 10 -> exists d, str_of_N n = String d EmptyString /\ re_digit d = true.
Proof.
  revert n. apply (below_bound_cases _ 10). intros i Hi.
  do 10 (destruct i as [|i]; [eexists; split; reflexivity|]). lia.
Qed.

Lemma format_1f_one_decimal x :
  (exists s, x = S754_zero s) \/ (exists s m e, x = S754_finite s m e) ->
  one_decimal (format_1f x).
Proof.
  intros [[s ->] | [s [m [e ->]]]]; unfold format_1f.
  - exists (if s then "-" else EmptyString), "0", "0"%char.
    repeat split; try reflexivity. destruct s; auto.
  - match goal with |- context [str_of_N (Z.to_N (?t mod 10))] => set (tenths := t) end.
    destruct (str_of_N_one_digit (Z.to_N (tenths mod 10))) as [d [Hd Rd]].
    { pose proof (Z.mod_pos_bound tenths 10 eq_refl). lia. }
    rewrite Hd.
    exists (if s then "-" else EmptyString), (str_of_N (Z.to_N (tenths / 10))), d.
    destruct (str_of_N_digits (Z.to_N (tenths / 10))) as [T A].
    repeat split; auto. destruct s; auto.
Qed.

(** ** The temperature validator *)

Lemma in_celsius_range_finite c :
  in_celsius_range c = true ->
  (exists s, c = S754_zero s) \/ (exists s m e, c = S754_finite s m e).
Proof.
  destruct c as [s|s| |s m e]; intros H; eauto.
  - destruct s; vm_compute in H; discriminate.
  - vm_compute in H; discriminate.
Qed.

Lemma validate_temperature_of_value temp v :
  truthy temp = true ->
  py_float (temperature_chars temp) = Ok v ->
  validate_temperature (Some temp) =
  Ok (if in_celsius_range (to_celsius v)
      then Some (format_1f (to_celsius v) +:+ String degree_sign "C")
      else None).
Proof.
  intros T P. unfold validate_temperature. rewrite T. simpl negb. cbv iota.
  fold (temperature_chars temp). rewrite P.
  change (try_except value_type
            (if in_celsius_range (to_celsius v)
             then Ok (Some (format_1f (to_celsius v) +:+ String degree_sign "C"))
             else Ok None) None = 
          Ok (if in_celsius_range (to_celsius v)
              then Some (format_1f (to_celsius v) +:+ String degree_sign "C")
              else None)).
  destruct (in_celsius_range (to_celsius v)); reflexivity.
Qed.

Lemma validate_temperature_unparsed temp e :
  py_float (temperature_chars temp) = Raise e ->
  validate_temperature (Some temp) = Ok None.
Proof.
  intros P. unfold validate_temperature.
  destruct (truthy temp); simpl; [|reflexivity].
  fold (temperature_chars temp). rewrite P. simpl.
  assert (e = ValueError) as ->; [|reflexivity].
  unfold py_float in P.
  repeat match type of P with
         | context [let '(_, _) := ?x in _] => destruct x
         | context [if ?b then _ else _] => destruct b
         | context [match ?x with _ => _ end] => destruct x
         end; congruence.
Qed.

Lemma validate_temperature_total temp :
  exists r, validate_temperature temp = Ok r.
Proof.
  destruct temp as [temp|]; [|eexists; reflexivity].
  destruct (truthy temp) eqn:T.
  - destruct (py_float (temperature_chars temp)) as [v|e] eqn:P.
    + eexists. apply validate_temperature_of_value; eauto.
    + eexists. eapply validate_temperature_unparsed; eauto.
  - eexists. unfold validate_temperature. rewrite T. reflexivity.
Qed.

Lemma validate_temperature_format temp s :
  validate_temperature temp = Ok (Some s) ->
  exists t, s = t +:+ String degree_sign "C" /\ one_decimal t.
Proof.
  destruct temp as [temp|]; [|discriminate].
  destruct (truthy temp) eqn:T.
  - destruct (py_float (temperature_chars temp)) as [v|e] eqn:P.
    + rewrite (validate_temperature_of_value _ _ T P).
      destruct (in_celsius_range (to_celsius v)) eqn:R; [|discriminate].
      intros [= <-]. eexists. split; [reflexivity|].
      apply format_1f_one_decimal, in_celsius_range_finite, R.
    + rewrite (validate_temperature_unparsed _ _ P). discriminate.
  - unfold validate_temperature. rewrite T. discriminate.
Qed.

(** C3.  The temperature validator parses the digits, dots and minus signs
    of the raw text, converts a value above 50 by (v - 32) * 5 / 9,
    accepts the result when it lies in [-50, 50] and then prints it with
    one decimal place and the suffix degree-C; it rejects everything
    else and never raises.  "98.6" gives "37.0", "20" gives "20.0", both
    with the suffix, and "200" gives the absence marker. *)
Theorem validate_temperature_fahrenheit_heuristic :
  (forall temp v,
      truthy temp = true ->
      py_float (temperature_chars temp) = Ok v ->
      validate_temperature (Some temp) =
      Ok (if in_celsius_range (to_celsius v)
          then Some (format_1f (to_celsius v) +:+ String degree_sign "C")
          else None)) /\
  (forall temp s,
      validate_temperature temp = Ok (Some s) ->
      exists t, s = t +:+ String degree_sign "C" /\ one_decimal t) /\
  (forall temp, exists r, validate_temperature temp = Ok r) /\
  validate_temperature (Some "98.6") = Ok (Some ("37.0" +:+ String degree_sign "C")) /\
  validate_temperature (Some "20") = Ok (Some ("20.0" +:+ String degree_sign "C")) /\
  validate_temperature (Some "200") = Ok None.
Proof.
  split; [exact validate_temperature_of_value|].
  split; [exact validate_temperature_format|].
  split; [exact validate_temperature_total|].
  repeat split; vm_compute; reflexivity.
Qed.

Lemma validate_temperature_fahrenheit_heuristic_witness :
  validate_temperature (Some "72 F") = Ok (Some ("22.2" +:+ String degree_sign "C")).
Proof.
  destruct (py_float (temperature_chars "72 F")) as [v|e] eqn:P;
    [|vm_compute in P; discriminate].
  rewrite (proj1 validate_temperature_fahrenheit_heuristic "72 F" v eq_refl P).
  vm_compute in P. injection P as <-. vm_compute. reflexivity.
Defined.

(** ** The wind-speed validator *)

Lemma str_all_app p a b : str_all p (a +:+ b) = str_all p a && str_all p b.
Proof.
  induction a as [|c a IH]; [reflexivity|].
  rewrite append_cons. simpl. rewrite IH, andb_assoc. reflexivity.
Qed.

Lemma lang_alphabet r s : lang r s -> str_all (alphabet r) s = true.
Proof.
  induction 1; simpl; try reflexivity.
  - rewrite H. reflexivity.
  - rewrite str_all_app, andb_true_iff. split.
    + eapply str_all_weaken; [|eassumption]. intros c Hc. rewrite Hc. reflexivity.
    + eapply str_all_weaken; [|eassumption]. intros c Hc. rewrite Hc. apply orb_true_r.
  - eapply str_all_weaken; [|eassumption]. intros c Hc. rewrite Hc. reflexivity.
  - eapply str_all_weaken; [|eassumption]. intros c Hc. rewrite Hc. apply orb_true_r.
  - rewrite str_all_app, andb_true_iff. split; assumption.
Qed.

Lemma lang_lit p s : lang (Lit p) s <-> s = p.
Proof.
  revert s. induction p as [|c p IH]; intros s; simpl.
  - split; [intros H; inversion H; reflexivity | intros ->; constructor].
  - split.
    + intros H. inversion H as [| |? ? s1 s2 H1 H2| | | |]; subst.
      inversion H1 as [|? ? E| | | | |]; subst.
      apply ascii_eqb_true in E as <-. apply IH in H2 as ->. reflexivity.
    + intros ->. change (String c p) with (String c EmptyString +:+ p).
      constructor; [constructor; apply Ascii.eqb_refl | apply IH; reflexivity].
Qed.

Lemma re_match_lang body s : re_match body s = true <-> lang (Cat body newline_re) s.
Proof. apply fullmatch_lang. Qed.

(** What [re.match] on an anchored pattern accepts: the texts of the
    pattern, with or without a final newline. *)
Lemma re_match_texts body s :
  re_match body s = true <->
  lang body s \/ exists t, s = t +:+ String "010" EmptyString /\ lang body t.
Proof.
  rewrite re_match_lang. split.
  - intros H. inversion H as [| |? ? s1 s2 H1 H2| | | |]; subst.
    inversion H2 as [| | |? ? ? E|? ? ? E| |]; subst.
    + inversion E; subst. rewrite append_nil_r. auto.
    + inversion E as [|? c Hc| | | | |]; subst.
      apply ascii_eqb_true in Hc as <-. eauto.
  - intros [H | [t [-> H]]].
    + rewrite <- (append_nil_r s). constructor; [exact H | apply lang_alt_l; constructor].
    + constructor; [exact H | apply lang_alt_r; constructor; reflexivity].
Qed.

Lemma wind_re_units s :
  re_match wind_re s =
  re_match (number_with_unit "km/h") s || re_match (number_with_unit "mph") s.
Proof.
  apply eq_iff_eq_true. rewrite orb_true_iff, !re_match_lang.
  unfold wind_re, number_with_unit. split.
  - intros H. inversion H as [| |? ? s1 s2 H1 H2| | | |]; subst.
    inversion H1 as [| |? ? n t Hn Ht| | | |]; subst.
    inversion Ht as [| |? ? w u Hw Hu| | | |]; subst.
    inversion Hu; subst; [left | right];
      (apply lang_cat; [|assumption]; apply lang_cat; [assumption|];
       apply lang_cat; assumption).
  - intros [H | H];
      inversion H as [| |? ? s1 s2 H1 H2| | | |]; subst;
      inversion H1 as [| |? ? n t Hn Ht| | | |]; subst;
      inversion Ht as [| |? ? w u Hw Hu| | | |]; subst.
    + apply lang_cat; [|assumption]. apply lang_cat; [assumption|].
      apply lang_cat; [assumption|]. apply lang_alt_l. assumption.
    + apply lang_cat; [|assumption]. apply lang_cat; [assumption|].
      apply lang_cat; [assumption|]. apply lang_alt_r. assumption.
Qed.

Lemma mph_unit_seen s :
  re_match (number_with_unit "mph") s = true -> str_in "mph" s = true.
Proof.
  rewrite re_match_lang. unfold number_with_unit. intros H.
  inversion H as [| |? ? s1 s2 H1 H2| | | |]; subst.
  inversion H1 as [| |? ? n t Hn Ht| | | |]; subst.
  inversion Ht as [| |? ? w u Hw Hu| | | |]; subst.
  apply (lang_lit "mph") in Hu as ->.
  apply str_in_spec. exists (n +:+ w), s2.
  rewrite !append_assoc. reflexivity.
Qed.

Lemma kmh_unit_only s :
  re_match (number_with_unit "km/h") s = true -> str_in "mph" s = false.
Proof.
  rewrite re_match_lang. intros H. apply lang_alphabet in H.
  apply str_in_false. intros [before [after ->]].
  rewrite !str_all_app, !andb_true_iff in H.
  destruct H as [_ [H _]]. vm_compute in H. discriminate.
Qed.

Lemma number_starts_with_digit unit s :
  re_match (number_with_unit unit) s = true ->
  exists c rest, s = String c rest /\ re_digit c = true.
Proof.
  rewrite re_match_lang. unfold number_with_unit, number_re, Plus. intros H.
  inversion H as [| |? ? s1 s2 H1 H2| | | |]; subst.
  inversion H1 as [| |? ? n t Hn Ht| | | |]; subst.
  inversion Hn as [| |? ? i f Hi Hf| | | |]; subst.
  inversion Hi as [| |? ? d ds Hd Hds| | | |]; subst.
  inversion Hd as [|? c Hc| | | | |]; subst.
  exists c. eexists. rewrite !append_cons. split; [reflexivity | exact Hc].
Qed.

Lemma span_class_spec cls s a b :
  span_class cls s = (a, b) ->
  s = a +:+ b /\ str_all cls a = true /\
  match b with EmptyString => True | String c _ => cls c = false end.
Proof.
  revert a b. induction s as [|c s IH]; simpl; intros a b H.
  - injection H as <- <-. auto.
  - destruct (cls c) eqn:E.
    + destruct (span_class cls s) as [a' b'] eqn:S. injection H as <- <-.
      destruct (IH _ _ eq_refl) as (-> & A & B).
      rewrite append_cons. simpl. rewrite E. auto.
    + injection H as <- <-. auto.
Qed.

Lemma span_class_app cls a b :
  str_all cls a = true ->
  match b with EmptyString => True | String c _ => cls c = false end ->
  span_class cls (a +:+ b) = (a, b).
Proof.
  intros A B. induction a as [|c a IH].
  - rewrite append_nil_l. destruct b as [|c b]; simpl; [reflexivity|].
    rewrite B. reflexivity.
  - simpl in A. apply andb_true_iff in A as [Hc A].
    rewrite append_cons. simpl. rewrite Hc, (IH A). reflexivity.
Qed.

Lemma span_class_all cls a : str_all cls a = true -> span_class cls a = (a, EmptyString).
Proof.
  intros A. rewrite <- (append_nil_r a) at 1. apply span_class_app; [exact A | exact I].
Qed.

Lemma py_float_integer ip :
  truthy ip = true -> str_all re_digit ip = true -> exists v, py_float ip = Ok v.
Proof.
  intros T A. unfold py_float.
  destruct ip as [|c ip]; [discriminate|].
  assert (Hc : Ascii.eqb c "-" = false).
  { simpl in A. apply andb_true_iff in A as [Hc _].
    destruct (Ascii.eqb c "-") eqn:E; [|reflexivity].
    apply ascii_eqb_true in E as ->. vm_compute in Hc. discriminate. }
  rewrite Hc, (span_class_all _ _ A). cbv beta iota zeta.
  rewrite append_nil_r. simpl. eauto.
Qed.

Lemma py_float_decimal ip frac :
  truthy ip = true -> str_all re_digit ip = true -> str_all re_digit frac = true ->
  exists v, py_float (ip +:+ "." +:+ frac) = Ok v.
Proof.
  intros T A F. unfold py_float.
  destruct ip as [|c ip]; [discriminate|].
  assert (Hc : Ascii.eqb c "-" = false).
  { simpl in A. apply andb_true_iff in A as [Hc _].
    destruct (Ascii.eqb c "-") eqn:E; [|reflexivity].
    apply ascii_eqb_true in E as ->. vm_compute in Hc. discriminate. }
  rewrite append_cons, Hc, <- append_cons.
  rewrite (span_class_app re_digit (String c ip) ("." +:+ frac) A eq_refl).
  cbv beta iota zeta. rewrite append_cons, append_nil_l.
  change (Ascii.eqb "." ".") with true. cbv iota.
  rewrite (span_class_all _ _ F). cbv beta iota zeta.
  rewrite append_cons. simpl. eauto.
Qed.

Lemma leading_number_float s group :
  leading_number s = Some group -> exists v, py_float group = Ok v.
Proof.
  unfold leading_number.
  destruct (span_class re_digit s) as [ip rest] eqn:E.
  apply span_class_spec in E as (-> & A & _).
  destruct (truthy ip) eqn:T; [|discriminate].
  destruct rest as [|c rest].
  - intros [= <-]. apply py_float_integer; assumption.
  - destruct (Ascii.eqb c ".").
    + destruct (span_class re_digit rest) as [frac tail] eqn:E.
      apply span_class_spec in E as (_ & F & _).
      destruct (truthy frac); intros [= <-].
      * apply py_float_decimal; assumption.
      * apply py_float_integer; assumption.
    + intros [= <-]. apply py_float_integer; assumption.
Qed.

Lemma leading_number_found c rest :
  re_digit c = true -> exists group, leading_number (String c rest) = Some group.
Proof.
  intros Hc. unfold leading_number. simpl. rewrite Hc.
  destruct (span_class re_digit rest) as [a b]. simpl.
  destruct b as [|x b]; [eauto|].
  destruct (Ascii.eqb x "."); [|eauto].
  destruct (span_class re_digit b) as [frac tail].
  destruct (truthy frac); eauto.
Qed.

Lemma validate_wind_speed_of_text el text :
  wind_text el text ->
  validate_wind_speed (Some el) =
  try_except value_type_attribute
    (if re_match wind_re text then
       if str_in "mph" text then
         match leading_number text with
         | Some group =>
             let! value := py_float group in
             Ok (Some (format_1f (fmul value mph_factor) +:+ " km/h"))
         | None => Raise AttributeError
         end
       else Ok (Some text)
     else Ok None)
    None.
Proof.
  intros [c Hq Hc | span0 v Hq Hv | span0 span1 others v u Hq Hv Hu];
    unfold validate_wind_speed; rewrite Hq; cbn [bind].
  - rewrite Hc. reflexivity.
  - rewrite Hv. reflexivity.
  - rewrite Hv. cbn [bind strip_method]. rewrite Hu. reflexivity.
Qed.

(** C4.  The wind-speed validator accepts exactly the raw texts made of a
    number, optional blanks and one of the units km/h and mph.  A text in
    km/h is returned unchanged; for a text in mph the number is multiplied
    by 1.60934 and printed with one decimal place and the unit km/h;
    every other text gives the absence marker.  "25 mph" gives
    "40.2 km/h", "10 km/h" gives "10 km/h" and "10 knots" is rejected. *)
Theorem validate_wind_speed_units :
  (forall el text,
      wind_text el text ->
      (re_match (number_with_unit "km/h") text = true ->
       validate_wind_speed (Some el) = Ok (Some text)) /\
      (re_match (number_with_unit "mph") text = true ->
       exists group value,
         leading_number text = Some group /\
         py_float group = Ok value /\
         validate_wind_speed (Some el) =
           Ok (Some (format_1f (fmul value mph_factor) +:+ " km/h"))) /\
      (re_match (number_with_unit "km/h") text = false ->
       re_match (number_with_unit "mph") text = false ->
       validate_wind_speed (Some el) = Ok None)) /\
  validate_wind_speed (Some (text_node "25 mph")) = Ok (Some "40.2 km/h") /\
  validate_wind_speed (Some (text_node "10 km/h")) = Ok (Some "10 km/h") /\
  validate_wind_speed (Some (text_node "10 knots")) = Ok None.
Proof.
  split; [|repeat split; vm_compute; reflexivity].
  intros el text Htext. rewrite (validate_wind_speed_of_text _ _ Htext).
  rewrite wind_re_units. repeat split.
  - intros K. rewrite K, (kmh_unit_only _ K). reflexivity.
  - intros M. rewrite M, orb_true_r, (mph_unit_seen _ M).
    destruct (number_starts_with_digit _ _ M) as (c & rest & -> & Hc).
    destruct (leading_number_found c rest Hc) as [group G].
    destruct (leading_number_float _ _ G) as [value V].
    exists group, value. rewrite G, V. auto.
  - intros K M. rewrite K, M. reflexivity.
Qed.

Lemma validate_wind_speed_units_witness :
  validate_wind_speed (Some (text_node " 7.5  mph ")) = Ok (Some "12.1 km/h").
Proof.
  destruct (proj1 validate_wind_speed_units (text_node " 7.5  mph ") "7.5  mph"
              (wind_text_plain (text_node " 7.5  mph ") " 7.5  mph " eq_refl eq_refl))
    as (_ & M & _).
  destruct (M eq_refl) as (group & value & G & V & R).
  vm_compute in G. injection G as <-.
  vm_compute in V. injection V as <-.
  rewrite R. vm_compute. reflexivity.
Defined.

(** ** The pollutant extractor *)

Lemma fill_fold_lookup keys (d : gmap string string) k :
  fold_left
    (fun d p => match d !! p with Some _ => d | None => <[p := "N/A"]> d end)
    keys d !! k =
  match d !! k with
  | Some v => Some v
  | None => if bool_decide (k ∈ keys) then Some "N/A" else None
  end.
Proof.
  revert d. induction keys as [|p keys IH]; intros d; simpl.
  - destruct (d !! k); reflexivity.
  - rewrite IH. clear IH. destruct (d !! p) eqn:Ep.
    + destruct (d !! k) eqn:Ek; [reflexivity|].
      assert (k <> p) by congruence.
      rewrite (bool_decide_ext (k ∈ p :: keys) (k ∈ keys))
        by (rewrite elem_of_cons; intuition congruence).
      reflexivity.
    + destruct (decide (k = p)) as [->|Hne].
      * rewrite lookup_insert_eq, Ep.
        rewrite bool_decide_eq_true_2 by (apply elem_of_cons; auto). reflexivity.
      * rewrite lookup_insert_ne by congruence.
        destruct (d !! k); [reflexivity|].
        rewrite (bool_decide_ext (k ∈ p :: keys) (k ∈ keys))
          by (rewrite elem_of_cons; intuition congruence).
        reflexivity.
Qed.

Lemma fill_missing_lookup d k :
  fill_missing d !! k =
  match d !! k with
  | Some v => Some v
  | None => if bool_decide (k ∈ canonical_pollutants) then Some "N/A" else None
  end.
Proof. apply fill_fold_lookup. Qed.

Lemma fill_missing_canonical d p :
  p ∈ canonical_pollutants -> is_Some (fill_missing d !! p).
Proof.
  intros H. rewrite fill_missing_lookup.
  destruct (d !! p); [eauto|]. rewrite bool_decide_eq_true_2 by exact H. eauto.
Qed.

Lemma fill_missing_idempotent d : fill_missing (fill_missing d) = fill_missing d.
Proof.
  apply map_eq. intros k. rewrite (fill_missing_lookup (fill_missing d)).
  destruct (fill_missing d !! k) eqn:E; [reflexivity|].
  rewrite fill_missing_lookup in E.
  destruct (d !! k); [discriminate|].
  case_bool_decide; [discriminate | reflexivity].
Qed.

Lemma pollutant_loop_app blocks1 blocks2 d :
  pollutant_loop (blocks1 ++ blocks2) d = pollutant_loop blocks2 (pollutant_loop blocks1 d).
Proof.
  revert d. induction blocks1 as [|b blocks1 IH]; intros d; simpl; [reflexivity|].
  destruct (pollutant_block b d); apply IH.
Qed.

Lemma pollutant_block_fault block d e :
  read_block block = Raise e -> pollutant_block block d = Raise e.
Proof. intros H. unfold pollutant_block. rewrite H. reflexivity. Qed.

Lemma extract_pollutants_canonical page p :
  p ∈ canonical_pollutants -> is_Some (fill_missing (extract_pollutants page) !! p).
Proof. apply fill_missing_canonical. Qed.

(** C9.  When the processing of one block of the pollutant list raises,
    the extractor skips that block only: it returns what it returns for
    the list without the block, and the six canonical keys are all in the
    result. *)
Theorem extract_pollutants_isolates_fault page before faulty after e :
  page_query_selector_all page ".major-pollutant" = Ok (before ++ faulty :: after) ->
  read_block faulty = Raise e ->
  extract_pollutants page = fill_missing (pollutant_loop (before ++ after) ∅) /\
  forall p, p ∈ canonical_pollutants -> is_Some (extract_pollutants page !! p).
Proof.
  intros Hq Hf. unfold extract_pollutants. rewrite Hq. split.
  - rewrite !pollutant_loop_app. simpl.
    rewrite (pollutant_block_fault _ _ _ Hf). reflexivity.
  - intros p Hp. apply fill_missing_canonical, Hp.
Qed.

Lemma extract_pollutants_isolates_fault_witness :
  extract_pollutants faulty_block_page !! "no2" = Some "3 ppb" /\
  extract_pollutants faulty_block_page !! "pm25" = Some "12.5 ug/m3" /\
  is_Some (extract_pollutants faulty_block_page !! "o3").
Proof.
  destruct (extract_pollutants_isolates_fault faulty_block_page
              [pollutant_entry "PM2.5" "12.5" "ug/m3"] detached_node
              [pollutant_entry "NO2" "3" "ppb"] PlaywrightError eq_refl eq_refl)
    as [E K].
  rewrite E. split; [|split].
  - vm_compute. reflexivity.
  - vm_compute. reflexivity.
  - rewrite <- E. apply K. repeat (apply elem_of_cons; auto; right).
Defined.

(** ** The page session driver *)

Ltac bind_step H :=
  match type of H with
  | bind ?m _ = Ok _ =>
      let E := fresh "E" in
      destruct m eqn:E; cbn [bind] in H; [|discriminate H]
  | (if ?b then _ else _) = Ok _ =>
      let E := fresh "E" in destruct b eqn:E
  end.

Lemma crawl_city_record_shape now page city record :
  crawl_city_data now page city = Some record ->
  exists aqi condition temperature,
    record =
    (Some <$> fill_missing (extract_pollutants page)) ∪
    driver_fields (Some (isoformat now)) (Some (display_name city)) aqi condition
      (dict_get (extract_weather_components page) "wind_speed")
      (dict_get (extract_weather_components page) "humidity")
      temperature
      (dict_get (extract_weather_components page) "uv_index").
Proof.
  unfold crawl_city_data.
  destruct (crawl_city_body now page city) as [r|] eqn:H; [|discriminate].
  intros [= ->]. unfold crawl_city_body in H.
  repeat bind_step H; injection H as <-; eauto.
Qed.

Lemma driver_fields_present t c a w ws h temp uv key :
  key ∈ ["timestamp"; "city"; "aqi"; "weather_condition"; "wind_speed";
         "humidity"; "temperature"; "uv_index"] ->
  is_Some (driver_fields t c a w ws h temp uv !! key).
Proof.
  intros H. unfold driver_fields.
  repeat (apply elem_of_cons in H as [-> | H]; [simplify_map_eq; eauto|]).
  apply elem_of_nil in H. contradiction.
Qed.

(** C6.  Every record the page session driver returns has the fourteen
    header names among its keys. *)
Theorem crawl_city_data_has_all_headers now page city record :
  crawl_city_data now page city = Some record ->
  forall field, field ∈ headers -> is_Some (record !! field).
Proof.
  intros H field Hf.
  destruct (crawl_city_record_shape _ _ _ _ H) as (aqi & condition & temperature & ->).
  apply lookup_union_is_Some.
  assert (C : field ∈ canonical_pollutants \/
              field ∈ ["timestamp"; "city"; "aqi"; "weather_condition"; "wind_speed";
                       "humidity"; "temperature"; "uv_index"]).
  { unfold headers, canonical_pollutants in *.
    repeat (apply elem_of_cons in Hf as [-> | Hf];
            [first [left; repeat (apply elem_of_cons; auto; right); fail
                   |right; repeat (apply elem_of_cons; auto; right); fail]|]).
    apply elem_of_nil in Hf. contradiction. }
  destruct C as [C | C].
  - left. rewrite lookup_fmap.
    destruct (fill_missing_canonical (extract_pollutants page) field C) as [v ->].
    simpl. eauto.
  - right. apply driver_fields_present, C.
Qed.

Lemma returned_record now page city :
  match crawl_city_data now page city with Some _ => true | None => false end = true ->
  crawl_city_data now page city = Some (default ∅ (crawl_city_data now page city)).
Proof. destruct (crawl_city_data now page city); [reflexivity | discriminate]. Qed.

Lemma plain_page_record :
  crawl_city_data january_clock plain_page hanoi = Some plain_record.
Proof.
  refine (returned_record january_clock plain_page hanoi _).
  vm_compute. reflexivity.
Qed.

Lemma radon_page_record :
  crawl_city_data january_clock radon_page hanoi = Some radon_record.
Proof.
  refine (returned_record january_clock radon_page hanoi _).
  vm_compute. reflexivity.
Qed.

Lemma city_block_page_record :
  crawl_city_data january_clock city_block_page hanoi = Some city_block_record.
Proof.
  refine (returned_record january_clock city_block_page hanoi _).
  vm_compute. reflexivity.
Qed.

Lemma unvalidated_page_record :
  crawl_city_data january_clock unvalidated_page hanoi = Some unvalidated_record.
Proof.
  refine (returned_record january_clock unvalidated_page hanoi _).
  vm_compute. reflexivity.
Qed.

Lemma crawl_city_data_has_all_headers_witness :
  is_Some (plain_record !! "uv_index") /\ is_Some (plain_record !! "so2").
Proof.
  split;
    apply (crawl_city_data_has_all_headers january_clock plain_page hanoi plain_record
             plain_page_record);
    unfold headers; repeat (apply elem_of_cons; auto; right).
Defined.

(** ** Keys outside the header *)

Lemma str_any_truthy p s : str_any p s = true -> truthy s = true.
Proof. destruct s; [discriminate | reflexivity]. Qed.

Lemma numeric_part_digit value :
  str_any re_digit value = true -> truthy (numeric_part value) = true.
Proof.
  unfold numeric_part. induction value as [|c value IH]; simpl; [discriminate|].
  destruct (re_digit c) eqn:E; simpl; [reflexivity|].
  intros H. destruct (Ascii.eqb c "."); simpl; [reflexivity | auto].
Qed.

Lemma pollutant_block_stores block d label value unit :
  read_block block = Ok (Some label, Some value, unit) ->
  truthy label = true -> str_any re_digit value = true ->
  pollutant_block block d =
  Ok (<[normalize_pollutant_name label := stored_value value unit]> d).
Proof.
  intros R L V. unfold pollutant_block. rewrite R.
  cbv beta iota delta [bind default opt_truthy].
  rewrite L, (str_any_truthy _ _ V). cbv beta iota zeta delta [andb id].
  rewrite (numeric_part_digit _ V). reflexivity.
Qed.

Lemma pollutant_block_keeps block d d' key :
  pollutant_block block d = Ok d' -> is_Some (d !! key) -> is_Some (d' !! key).
Proof.
  unfold pollutant_block. destruct (read_block block) as [[[n v] u]|]; [|discriminate].
  cbn [bind].
  destruct (opt_truthy n && opt_truthy v); [|intros [= <-]; auto].
  destruct (truthy _); intros [= <-]; [|auto].
  intros H. rewrite lookup_insert. case_decide; eauto.
Qed.

Lemma pollutant_loop_keeps blocks d key :
  is_Some (d !! key) -> is_Some (pollutant_loop blocks d !! key).
Proof.
  revert d. induction blocks as [|b blocks IH]; intros d H; simpl; [exact H|].
  destruct (pollutant_block b d) eqn:E; [|auto].
  apply IH. eapply pollutant_block_keeps; eauto.
Qed.

Lemma record_takes_pollutant now page city record key v :
  crawl_city_data now page city = Some record ->
  extract_pollutants page !! key = Some v ->
  record !! key = Some (Some v).
Proof.
  intros H E.
  destruct (crawl_city_record_shape _ _ _ _ H) as (aqi & condition & temperature & ->).
  apply lookup_union_Some_l. rewrite lookup_fmap, fill_missing_lookup, E. reflexivity.
Qed.

(** C10, as the code has it.  A pollutant block with a name and a value
    holding a digit puts the key its name is normalized to in the
    pollutant mapping and in the record, with the value of the mapping;
    when the block is the last one the value is its own.  When the key is
    none of the fourteen header names, the keys of the record are not all
    in the header. *)
Theorem unknown_pollutant_is_extra_field
    now page city record before block after label value unit :
  crawl_city_data now page city = Some record ->
  page_query_selector_all page ".major-pollutant" = Ok (before ++ block :: after) ->
  read_block block = Ok (Some label, Some value, unit) ->
  truthy label = true ->
  str_any re_digit value = true ->
  (exists v,
      extract_pollutants page !! normalize_pollutant_name label = Some v /\
      record !! normalize_pollutant_name label = Some (Some v) /\
      (after = [] -> v = stored_value value unit)) /\
  (normalize_pollutant_name label ∉ headers ->
   ~ (dom record ⊆ list_to_set headers)).
Proof.
  intros H Q R L V.
  set (key := normalize_pollutant_name label).
  assert (S : pollutant_loop (before ++ [block]) ∅ !! key = Some (stored_value value unit)).
  { rewrite pollutant_loop_app. simpl.
    rewrite (pollutant_block_stores _ _ _ _ _ R L V). apply lookup_insert_eq. }
  assert (P : exists v, extract_pollutants page !! key = Some v /\
                        (after = [] -> v = stored_value value unit)).
  { unfold extract_pollutants. rewrite Q.
    change (before ++ block :: after) with (before ++ [block] ++ after).
    rewrite app_assoc, pollutant_loop_app.
    destruct (pollutant_loop_keeps after (pollutant_loop (before ++ [block]) ∅) key)
      as [v E]; [rewrite S; eauto|].
    exists v. rewrite fill_missing_lookup, E. split; [reflexivity|].
    intros ->. simpl in E. congruence. }
  destruct P as (v & E & Last).
  pose proof (record_takes_pollutant _ _ _ _ _ _ H E) as Rk.
  split; [eauto|].
  intros Hout Hsub. apply Hout.
  assert (D : key ∈ dom record) by (apply elem_of_dom; eauto).
  apply Hsub in D. apply elem_of_list_to_set in D. exact D.
Qed.

Lemma unknown_pollutant_is_extra_field_witness :
  radon_record !! "radon" = Some (Some "7 Bq/m3") /\
  ~ (dom radon_record ⊆ list_to_set headers).
Proof.
  destruct (unknown_pollutant_is_extra_field january_clock radon_page hanoi radon_record
              [pollutant_entry "PM2.5" "12.5" "ug/m3"]
              (pollutant_entry "Radon" "7" "Bq/m3") [] "Radon" "7" (Some "Bq/m3")
              radon_page_record eq_refl eq_refl eq_refl eq_refl)
    as [(v & _ & Rk & Last) Extra].
  split.
  - rewrite (Last eq_refl) in Rk. exact Rk.
  - apply Extra. vm_compute. intros Hin.
    repeat (apply elem_of_cons in Hin as [Hin | Hin]; [discriminate Hin|]).
    apply elem_of_nil in Hin. exact Hin.
Defined.

(** C10 as stated fails: the label "City" is normalized to a key outside
    the six canonical pollutant keys, yet the record has no key outside
    the header. *)
Lemma city_label_is_no_extra_field :
  crawl_city_data january_clock city_block_page hanoi = Some city_block_record /\
  read_block (pollutant_entry "City" "9" "x") = Ok (Some "City", Some "9", Some "x") /\
  (normalize_pollutant_name "City" ∉ canonical_pollutants) /\
  city_block_record !! normalize_pollutant_name "City" = Some (Some "9 x") /\
  dom city_block_record ⊆ list_to_set headers.
Proof.
  split; [exact city_block_page_record|]. split; [reflexivity|]. split; [|split].
  - vm_compute. intros Hin.
    repeat (apply elem_of_cons in Hin as [Hin | Hin]; [discriminate Hin|]).
    apply elem_of_nil in Hin. exact Hin.
  - vm_compute. reflexivity.
  - apply (bool_decide_unpack _). vm_compute. exact I.
Qed.

(** ** The CSV sink *)

Lemma save_to_csv_file now data city_name fs :
  files (fst (save_to_csv now data city_name fs)) !! output_path now city_name =
  Some (default [headers] (files fs !! output_path now city_name) ++ data_rows data).
Proof.
  unfold save_to_csv, data_rows. fold (output_path now city_name).
  set (path := output_path now city_name).
  unfold open_append, append_row. cbn [files dirs].
  destruct (files fs !! path) as [rows|] eqn:E; cbn [files dirs].
  - rewrite bool_decide_eq_true_2 by eauto.
    destruct (dict_to_row headers data) as [row|]; cbn [fst files].
    + rewrite E, lookup_insert_eq. reflexivity.
    + rewrite E, app_nil_r. reflexivity.
  - rewrite bool_decide_eq_false_2 by (intros [? ?]; discriminate).
    cbn [files dirs]. rewrite !lookup_insert_eq. cbn [default from_option id].
    destruct (dict_to_row headers data) as [row|]; cbn [fst files].
    + rewrite !lookup_insert_eq. reflexivity.
    + rewrite lookup_insert_eq. reflexivity.
Qed.

Lemma save_to_csv_result now data city_name fs :
  snd (save_to_csv now data city_name fs) =
  match dict_to_row headers data with
  | Ok _ => Ok (output_path now city_name)
  | Raise e => Raise e
  end.
Proof.
  unfold save_to_csv. fold (output_path now city_name).
  destruct (dict_to_row headers data); reflexivity.
Qed.

Lemma dict_to_row_known_keys data :
  dom data ⊆ list_to_set headers ->
  dict_to_row headers data = Ok (map (fun key => cell (data !! key)) headers).
Proof. intros H. unfold dict_to_row. rewrite bool_decide_eq_true_2 by exact H. reflexivity. Qed.

Lemma dict_to_row_outcome data :
  (exists row, dict_to_row headers data = Ok row) \/
  dict_to_row headers data = Raise ValueError.
Proof. unfold dict_to_row. case_bool_decide; eauto. Qed.

Lemma output_path_same_month now1 now2 city_name :
  year now1 = year now2 -> month now1 = month now2 ->
  output_path now1 city_name = output_path now2 city_name.
Proof. intros Hy Hm. unfold output_path, strftime_b. rewrite Hy, Hm. reflexivity. Qed.

(** C7, as the code has it.  A call of the sink leaves in the output file
    what was there, or the header row when the file was absent, followed
    by the row of the record when all its keys are header names, and by
    nothing when the record has another key.  Two calls in the same month
    for one city, on an absent file and with records whose keys are all
    header names, leave the header row followed by the two rows in the
    order of the calls. *)
Theorem save_to_csv_header_once :
  (forall now data city_name fs,
      files (fst (save_to_csv now data city_name fs)) !! output_path now city_name =
      Some (default [headers] (files fs !! output_path now city_name) ++ data_rows data)) /\
  (forall now1 now2 data1 data2 city_name fs,
      year now1 = year now2 -> month now1 = month now2 ->
      files fs !! output_path now1 city_name = None ->
      dom data1 ⊆ list_to_set headers ->
      dom data2 ⊆ list_to_set headers ->
      files (fst (save_to_csv now2 data2 city_name
                    (fst (save_to_csv now1 data1 city_name fs))))
        !! output_path now1 city_name =
      Some [headers;
            map (fun key => cell (data1 !! key)) headers;
            map (fun key => cell (data2 !! key)) headers]).
Proof.
  split; [exact save_to_csv_file|].
  intros now1 now2 data1 data2 city_name fs Hy Hm Habsent H1 H2.
  rewrite (output_path_same_month _ _ city_name Hy Hm) in *.
  rewrite save_to_csv_file.
  rewrite <- (output_path_same_month _ _ city_name Hy Hm) at 1.
  rewrite save_to_csv_file.
  rewrite (output_path_same_month _ _ city_name Hy Hm), Habsent.
  unfold data_rows. rewrite (dict_to_row_known_keys _ H1), (dict_to_row_known_keys _ H2).
  reflexivity.
Qed.

Lemma save_to_csv_header_once_witness :
  files (fst (save_to_csv february_clock plain_record "hanoi"
                (fst (save_to_csv february_clock plain_record "hanoi" empty_fs))))
    !! output_path february_clock "hanoi" =
  Some [headers;
        map (fun key => cell (plain_record !! key)) headers;
        map (fun key => cell (plain_record !! key)) headers].
Proof.
  apply (proj2 save_to_csv_header_once february_clock february_clock
           plain_record plain_record "hanoi" empty_fs eq_refl eq_refl).
  - vm_compute. reflexivity.
  - apply (bool_decide_unpack _). vm_compute. exact I.
  - apply (bool_decide_unpack _). vm_compute. exact I.
Defined.

(** C7 as stated fails: with a record that has the key "radon", two calls
    of the sink leave the header row and no data row. *)
Lemma extra_key_leaves_header_only :
  crawl_city_data january_clock radon_page hanoi = Some radon_record /\
  snd (save_to_csv january_clock radon_record "hanoi" empty_fs) = Raise ValueError /\
  files (fst (save_to_csv january_clock radon_record "hanoi"
                (fst (save_to_csv january_clock radon_record "hanoi" empty_fs))))
    !! "result/hanoi/aqi_hanoi_2024_jan.csv" = Some [headers].
Proof.
  split; [|split].
  - exact radon_page_record.
  - vm_compute. reflexivity.
  - vm_compute. reflexivity.
Qed.

(** ** The path of the output file *)

Lemma split_on_absent sep s :
  str_all (fun c => negb (Ascii.eqb c sep)) s = true -> split_on sep s = [s].
Proof.
  induction s as [|c s IH]; simpl; [reflexivity|].
  rewrite andb_true_iff, negb_true_iff. intros [Hc Hs].
  rewrite Hc, (IH Hs). reflexivity.
Qed.

Lemma path_parts_component s : path_component s -> path_parts s = [s].
Proof.
  intros (T & Hdot & Hs). unfold path_parts. rewrite (split_on_absent _ _ Hs).
  simpl. rewrite T. apply String.eqb_neq in Hdot. rewrite Hdot. reflexivity.
Qed.

Lemma path_parts_result city_name :
  path_component city_name -> path_parts ("result/" +:+ city_name) = ["result"; city_name].
Proof.
  intros (T & Hdot & Hs). unfold path_parts.
  rewrite !append_cons, append_nil_l. simpl.
  rewrite (split_on_absent _ _ Hs). simpl.
  rewrite T. apply String.eqb_neq in Hdot. rewrite Hdot. reflexivity.
Qed.

Lemma strftime_b_names now :
  1 <= month now <= 12 -> lower (strftime_b now) ∈ month_names.
Proof.
  unfold strftime_b, month_names. generalize (month now) as m.
  intros m [Hlow Hhigh].
  assert (Hlt : m < N.of_nat 13) by lia. clear Hhigh.
  revert Hlow. pattern m. revert m Hlt. apply (below_bound_cases _ 13).
  intros i Hi Hlow.
  destruct i as [|i]; [lia|].
  do 12 (destruct i as [|i]; [simpl; repeat (apply elem_of_cons; auto; right)|]).
  lia.
Qed.

Lemma month_names_no_slash mon :
  mon ∈ month_names -> str_all (fun c => negb (Ascii.eqb c "/")) mon = true.
Proof.
  unfold month_names. intros H.
  repeat (apply elem_of_cons in H as [-> | H]; [reflexivity|]).
  apply elem_of_nil in H. contradiction.
Qed.

Lemma file_name_component city_name y mon :
  path_component city_name -> mon ∈ month_names ->
  path_component ("aqi_" +:+ city_name +:+ "_" +:+ str_of_N y +:+ "_" +:+ mon +:+ ".csv").
Proof.
  intros (T & Hdot & Hs) Hm. repeat split.
  - intros H. rewrite !append_cons in H. discriminate H.
  - rewrite !str_all_app, Hs, (month_names_no_slash _ Hm).
    rewrite (str_all_weaken re_digit _ (str_of_N y)).
    + reflexivity.
    + intros c Hc. destruct (Ascii.eqb c "/") eqn:E; [|reflexivity].
      apply ascii_eqb_true in E as ->. vm_compute in Hc. discriminate.
    + apply str_of_N_digits.
Qed.

Lemma output_path_text now city_name :
  1 <= month now <= 12 -> path_component city_name ->
  output_path now city_name =
  "result/" +:+ city_name +:+ "/aqi_" +:+ city_name +:+ "_" +:+ str_of_N (year now) +:+
  "_" +:+ lower (strftime_b now) +:+ ".csv".
Proof.
  intros Hm Hc. unfold output_path.
  rewrite (path_parts_result _ Hc).
  rewrite (path_parts_component _ (file_name_component _ _ _ Hc (strftime_b_names _ Hm))).
  reflexivity.
Qed.

(** C8, as the code has it.  For a city slug that is one path component,
    the sink writes the file
    result/<slug>/aqi_<slug>_<year>_<month>.csv, where the year and the
    three-letter lower-case month are those of the clock reading the sink
    takes itself when it is called; the record plays no part in the path.
    The sink returns this path when all keys of the record are header
    names and raises [ValueError] otherwise. *)
Theorem save_to_csv_path_from_clock now data city_name fs :
  1 <= month now <= 12 ->
  path_component city_name ->
  is_Some (files (fst (save_to_csv now data city_name fs))
             !! ("result/" +:+ city_name +:+ "/aqi_" +:+ city_name +:+ "_" +:+
                 str_of_N (year now) +:+ "_" +:+ lower (strftime_b now) +:+ ".csv")) /\
  snd (save_to_csv now data city_name fs) =
    (if bool_decide (dom data ⊆ list_to_set headers)
     then Ok ("result/" +:+ city_name +:+ "/aqi_" +:+ city_name +:+ "_" +:+
              str_of_N (year now) +:+ "_" +:+ lower (strftime_b now) +:+ ".csv")
     else Raise ValueError) /\
  lower (strftime_b now) ∈ month_names.
Proof.
  intros Hm Hc. rewrite <- (output_path_text _ _ Hm Hc). repeat split.
  - rewrite save_to_csv_file. eauto.
  - rewrite save_to_csv_result. unfold dict_to_row. case_bool_decide; reflexivity.
  - apply strftime_b_names, Hm.
Qed.

Lemma save_to_csv_path_from_clock_witness :
  snd (save_to_csv february_clock plain_record "hanoi" empty_fs) =
  Ok "result/hanoi/aqi_hanoi_2024_feb.csv".
Proof.
  assert (Hm : 1 <= month february_clock <= 12) by (vm_compute; split; discriminate).
  assert (Hc : path_component "hanoi")
    by (split; [reflexivity | split; [discriminate | reflexivity]]).
  destruct (save_to_csv_path_from_clock february_clock plain_record "hanoi" empty_fs Hm Hc)
    as (_ & R & _).
  rewrite R. vm_compute. reflexivity.
Defined.

(** C8 as stated fails: for the record stamped on 31 January and the sink
    called on 1 February, the path read from the timestamp of the record
    is not the path of the file the sink writes. *)
Lemma path_is_not_from_timestamp :
  plain_record !! "timestamp" = Some (Some "2024-01-31T23:59:59+07:00") /\
  path_from_timestamp plain_record "hanoi" = Some "result/hanoi/aqi_hanoi_2024_jan.csv" /\
  snd (save_to_csv february_clock plain_record "hanoi" empty_fs) =
    Ok "result/hanoi/aqi_hanoi_2024_feb.csv" /\
  Some (snd (save_to_csv february_clock plain_record "hanoi" empty_fs)) <>
    Ok <$> path_from_timestamp plain_record "hanoi".
Proof.
  repeat split; try (vm_compute; reflexivity).
  vm_compute. discriminate.
Qed.

(** ** What the weather validators can return *)

Ltac outcome_step H :=
  match type of H with
  | bind ?m _ = Ok _ =>
      let E := fresh "E" in
      destruct m eqn:E; cbn [bind] in H; [|discriminate H]
  | match ?x with _ => _ end = Ok _ =>
      let E := fresh "E" in destruct x eqn:E; try discriminate H
  end.

Lemma try_except_some {A} handled (body : outcome (option A)) (a : A) :
  try_except handled body None = Ok (Some a) -> body = Ok (Some a).
Proof.
  unfold try_except. destruct body as [r|e]; [auto|].
  destruct (handled e); discriminate.
Qed.

Lemma length_append a b : String.length (a +:+ b) = (String.length a + String.length b)%nat.
Proof.
  induction a as [|c a IH]; [reflexivity|].
  rewrite append_cons. simpl. rewrite IH. reflexivity.
Qed.

Lemma append_same_suffix_length a b c d :
  a +:+ b = c +:+ d -> String.length b = String.length d -> b = d.
Proof.
  revert c. induction a as [|x a IH]; intros c H L.
  - rewrite append_nil_l in H. destruct c as [|y c]; [exact H|].
    apply (f_equal String.length) in H. rewrite length_append in H. simpl in H. lia.
  - destruct c as [|y c].
    + rewrite append_nil_l in H.
      apply (f_equal String.length) in H. rewrite length_append in H. simpl in H. lia.
    + rewrite !append_cons in H. injection H as _ H. eauto.
Qed.

Lemma validate_humidity_range el s :
  validate_humidity el = Ok (Some s) -> re_match humidity_re s = true.
Proof.
  intros H. apply try_except_some in H.
  repeat outcome_step H; congruence.
Qed.

Lemma validate_uv_index_range el s :
  validate_uv_index el = Ok (Some s) -> exists n, n <= 11 /\ s = str_of_N n.
Proof.
  intros H. apply try_except_some in H.
  repeat outcome_step H;
    injection H as <-;
    match goal with
    | E : (_ && (?n <=? 11)) = true |- _ =>
        apply andb_true_iff in E as [_ E]; apply N.leb_le in E; eauto
    end.
Qed.

Lemma validate_wind_speed_range el s :
  validate_wind_speed el = Ok (Some s) ->
  (exists x, s = x +:+ " km/h") \/ str_in "mph" s = false.
Proof.
  intros H. apply try_except_some in H.
  repeat outcome_step H; injection H as <-; eauto.
Qed.

(** C1 fails on the code.  For a page whose component blocks show a
    humidity of "abc", a wind speed of "12 mph" and a UV index of "99", and
    whose temperature is given as "85" with the unit degree-F, the driver
    returns a record that holds these raw texts; none of them is the
    absence marker, and none is a value the matching validator can
    return. *)
Theorem crawl_city_data_stores_raw_text :
  crawl_city_data january_clock unvalidated_page hanoi = Some unvalidated_record /\
  unvalidated_record !! "humidity" = Some (Some "abc") /\
  (forall el, validate_humidity el <> Ok (Some "abc")) /\
  unvalidated_record !! "wind_speed" = Some (Some "12 mph") /\
  (forall el, validate_wind_speed el <> Ok (Some "12 mph")) /\
  unvalidated_record !! "uv_index" = Some (Some "99") /\
  (forall el, validate_uv_index el <> Ok (Some "99")) /\
  unvalidated_record !! "temperature" = Some (Some ("85" +:+ String degree_sign "F")) /\
  (forall temp, validate_temperature temp <> Ok (Some ("85" +:+ String degree_sign "F"))).
Proof.
  split; [exact unvalidated_page_record|].
  split; [vm_compute; reflexivity|]. split.
  { intros el H. apply validate_humidity_range in H. vm_compute in H. discriminate. }
  split; [vm_compute; reflexivity|]. split.
  { intros el H. apply validate_wind_speed_range in H as [[x H] | H].
    - apply (append_same_suffix_length "1" "2 mph" x " km/h") in H;
        [discriminate | reflexivity].
    - vm_compute in H. discriminate. }
  split; [vm_compute; reflexivity|]. split.
  { intros el H. apply validate_uv_index_range in H as (n & Hn & H).
    assert (Hlt : n < N.of_nat 12) by lia. clear Hn.
    revert H. pattern n. revert n Hlt. apply (below_bound_cases _ 12).
    intros i Hi H.
    do 12 (destruct i as [|i]; [vm_compute in H; discriminate H|]). lia. }
  split; [vm_compute; reflexivity|].
  intros temp H. apply validate_temperature_format in H as (t & H & _).
  apply (append_same_suffix_length "85" (String degree_sign "F") t
           (String degree_sign "C")) in H; [discriminate | reflexivity].
Qed.

(* ===================================================================== *)
(** * Further properties                                                  *)
(* ===================================================================== *)

(** ** Stripping *)

Lemma rstrip_cons c s :
  rstrip (String c s) = EmptyString \/ exists r, rstrip (String c s) = String c r.
Proof.
  simpl. destruct (rstrip s); [destruct (char_isspace c)|]; eauto.
Qed.

Lemma rstrip_idempotent s : rstrip (rstrip s) = rstrip s.
Proof.
  induction s as [|c s IH]; [reflexivity|]. simpl.
  destruct (rstrip s) as [|x r] eqn:E.
  - destruct (char_isspace c) eqn:Hc; [reflexivity|]. simpl. rewrite Hc. reflexivity.
  - cbn [rstrip]. cbn [rstrip] in IH. rewrite IH. reflexivity.
Qed.

Lemma lstrip_head s :
  match lstrip s with
  | EmptyString => True
  | String c _ => char_isspace c = false
  end.
Proof.
  induction s as [|c s IH]; simpl; [exact I|].
  destruct (char_isspace c) eqn:E; [exact IH | exact E].
Qed.

Lemma lstrip_fixed s :
  match s with
  | EmptyString => True
  | String c _ => char_isspace c = false
  end -> lstrip s = s.
Proof. destruct s as [|c s]; simpl; [reflexivity|]. intros ->. reflexivity. Qed.

Lemma rstrip_keeps_head s :
  match s with
  | EmptyString => True
  | String c _ => char_isspace c = false
  end ->
  match rstrip s with
  | EmptyString => True
  | String c _ => char_isspace c = false
  end.
Proof.
  destruct s as [|c s]; [auto|]. intros Hc.
  destruct (rstrip_cons c s) as [-> | [r ->]]; [exact I | exact Hc].
Qed.

Lemma strip_idempotent s : strip (strip s) = strip s.
Proof.
  unfold strip.
  rewrite (lstrip_fixed (rstrip (lstrip s))) by apply rstrip_keeps_head, lstrip_head.
  apply rstrip_idempotent.
Qed.

Lemma rstrip_last s a c :
  rstrip s = a +:+ String c EmptyString -> char_isspace c = false.
Proof.
  revert a. induction s as [|x s IH]; intros a H; simpl in H.
  - destruct a; discriminate.
  - destruct (rstrip s) as [|y r] eqn:E.
    + destruct (char_isspace x) eqn:Hx.
      * destruct a; discriminate.
      * destruct a as [|z a].
        -- rewrite append_nil_l in H. injection H as ->. exact Hx.
        -- rewrite append_cons in H. injection H as _ H. destruct a; discriminate.
    + destruct a as [|z a].
      * rewrite append_nil_l in H. discriminate.
      * rewrite append_cons in H. injection H as _ H. eauto.
Qed.

Lemma strip_last s a c :
  strip s = a +:+ String c EmptyString -> char_isspace c = false.
Proof. apply rstrip_last. Qed.

Lemma strip_first s c t : strip s = String c t -> char_isspace c = false.
Proof.
  unfold strip. intros H.
  pose proof (rstrip_keeps_head (lstrip s) (lstrip_head s)) as K.
  rewrite H in K. exact K.
Qed.

Lemma lstrip_suffix s : exists blanks, s = blanks +:+ lstrip s.
Proof.
  induction s as [|c s [b IH]]; simpl.
  - exists EmptyString. reflexivity.
  - destruct (char_isspace c).
    + exists (String c b). rewrite append_cons, <- IH. reflexivity.
    + exists EmptyString. reflexivity.
Qed.

Lemma rstrip_prefix s : exists blanks, s = rstrip s +:+ blanks.
Proof.
  induction s as [|c s [b IH]]; simpl.
  - exists EmptyString. reflexivity.
  - destruct (rstrip s) as [|y r] eqn:E.
    + destruct (char_isspace c).
      * exists (String c s). reflexivity.
      * exists s. reflexivity.
    + exists b. rewrite append_cons, <- IH. reflexivity.
Qed.

Lemma strip_substring s : Substring (strip s) s.
Proof.
  unfold strip, Substring.
  destruct (lstrip_suffix s) as [b1 H1].
  destruct (rstrip_prefix (lstrip s)) as [b2 H2].
  exists b1, b2. rewrite <- H2. exact H1.
Qed.

Lemma substring_trans a b c : Substring a b -> Substring b c -> Substring a c.
Proof.
  intros (x & y & ->) (u & v & ->).
  exists (u +:+ x), (y +:+ v). rewrite !append_assoc. reflexivity.
Qed.

Lemma char_lower_isspace c : char_isspace (char_lower c) = char_isspace c.
Proof. destruct c as [[] [] [] [] [] [] [] []]; reflexivity. Qed.

Lemma lower_lstrip s : lower (lstrip s) = lstrip (lower s).
Proof.
  induction s as [|c s IH]; [reflexivity|]. simpl.
  rewrite char_lower_isspace. destruct (char_isspace c); [exact IH | reflexivity].
Qed.

Lemma lower_rstrip s : lower (rstrip s) = rstrip (lower s).
Proof.
  induction s as [|c s IH]; [reflexivity|]. simpl.
  rewrite <- IH, char_lower_isspace.
  destruct (rstrip s); simpl; [destruct (char_isspace c)|]; reflexivity.
Qed.

Lemma lower_strip s : lower (strip s) = strip (lower s).
Proof. unfold strip. rewrite lower_rstrip, lower_lstrip. reflexivity. Qed.

(** ** The pollutant normalizer, again *)

Lemma pattern_absent_in_strip pattern s :
  str_in pattern s = false -> str_in pattern (strip s) = false.
Proof.
  rewrite !str_in_false. intros H K. apply H.
  eapply substring_trans; [exact K | apply strip_substring].
Qed.

Lemma normalize_pollutant_name_in_range label :
  normalize_pollutant_name label ∈ canonical_pollutants \/
  ((forall entry, entry ∈ pollutant_table ->
      ~ Substring (fst entry) (normalize_pollutant_name label)) /\
   strip (normalize_pollutant_name label) = normalize_pollutant_name label /\
   lower (normalize_pollutant_name label) = normalize_pollutant_name label).
Proof.
  unfold normalize_pollutant_name, canonical_pollutants. cbv zeta.
  destruct (str_in "pm2.5" (lower label)) eqn:E1;
    [left; repeat (apply elem_of_cons; auto; right)|].
  destruct (str_in "pm10" (lower label)) eqn:E2;
    [left; repeat (apply elem_of_cons; auto; right)|].
  destruct (str_in "co" (lower label)) eqn:E3;
    [left; repeat (apply elem_of_cons; auto; right)|].
  destruct (str_in "so2" (lower label)) eqn:E4;
    [left; repeat (apply elem_of_cons; auto; right)|].
  destruct (str_in "no2" (lower label)) eqn:E5;
    [left; repeat (apply elem_of_cons; auto; right)|].
  destruct (str_in "o3" (lower label)) eqn:E6;
    [left; repeat (apply elem_of_cons; auto; right)|].
  right. split; [|split].
  - intros entry Hin. apply str_in_false, pattern_absent_in_strip.
    unfold pollutant_table in Hin.
    repeat (apply elem_of_cons in Hin as [-> | Hin]; [assumption|]).
    apply elem_of_nil in Hin. contradiction.
  - apply strip_idempotent.
  - rewrite lower_strip, lower_idempotent. reflexivity.
Qed.

(** X1.  A key the normalizer returns is one of the six canonical keys, or
    it holds none of the six patterns, has no blank at either end and is
    in lower case. *)
Theorem normalize_pollutant_name_range label :
  normalize_pollutant_name label ∈ canonical_pollutants \/
  ((forall entry, entry ∈ pollutant_table ->
      ~ Substring (fst entry) (normalize_pollutant_name label)) /\
   strip (normalize_pollutant_name label) = normalize_pollutant_name label /\
   lower (normalize_pollutant_name label) = normalize_pollutant_name label).
Proof. exact (normalize_pollutant_name_in_range label). Qed.

(** X2.  Normalizing a pollutant name twice gives what normalizing it once
    gives: every key the normalizer returns is mapped to itself. *)
Theorem normalize_pollutant_name_idempotent label :
  normalize_pollutant_name (normalize_pollutant_name label) =
  normalize_pollutant_name label.
Proof.
  destruct (normalize_pollutant_name_in_range label) as [Hin | (Hnone & Hstrip & Hlower)].
  - unfold canonical_pollutants in Hin.
    repeat (apply elem_of_cons in Hin as [-> | Hin]; [reflexivity|]).
    apply elem_of_nil in Hin. contradiction.
  - set (key := normalize_pollutant_name label) in *.
    unfold normalize_pollutant_name. rewrite Hlower.
    assert (A : forall pattern out, (pattern, out) ∈ pollutant_table ->
                str_in pattern key = false).
    { intros pattern out Hin. apply str_in_false. exact (Hnone _ Hin). }
    unfold pollutant_table in A.
    rewrite (A "pm2.5" "pm25"), (A "pm10" "pm10"), (A "co" "co"),
            (A "so2" "so2"), (A "no2" "no2"), (A "o3" "o3")
      by (repeat (apply elem_of_cons; auto; right)).
    exact Hstrip.
Qed.

(** ** What the validators accept *)

(** X3.  An AQI value the validator accepts is the decimal form, without a
    leading zero, of a number from 0 to 500. *)
Theorem validate_aqi_sound el s :
  validate_aqi el = Ok (Some s) -> exists n, n <= 500 /\ s = str_of_N n.
Proof.
  intros H. apply try_except_some in H.
  repeat outcome_step H;
    injection H as <-;
    match goal with
    | E : (_ && (?n <=? 500)) = true |- _ =>
        apply andb_true_iff in E as [_ E]; apply N.leb_le in E; eauto
    end.
Qed.

Lemma validate_aqi_sound_witness : exists n, n <= 500 /\ "7" = str_of_N n.
Proof.
  exact (validate_aqi_sound (Some (text_node "AQI 007")) "7" eq_refl).
Defined.

Lemma lang_digit s :
  lang (Cls re_digit) s <-> exists c, s = String c EmptyString /\ re_digit c = true.
Proof.
  split.
  - intros H. inversion H; subst. eauto.
  - intros (c & -> & Hc). constructor. exact Hc.
Qed.

Lemma lang_optional_digit s :
  lang (Opt (Cls re_digit)) s <->
  s = EmptyString \/ exists c, s = String c EmptyString /\ re_digit c = true.
Proof.
  unfold Opt. split.
  - intros H. inversion H as [| | |? ? ? E|? ? ? E| |]; subst.
    + inversion E. auto.
    + right. apply lang_digit, E.
  - intros [-> | H]; [apply lang_alt_l; constructor | apply lang_alt_r, lang_digit, H].
Qed.

Lemma lang_chr c s : lang (Chr c) s <-> s = String c EmptyString.
Proof.
  unfold Chr. split.
  - intros H. inversion H as [|? x Hx| | | | |]; subst.
    apply ascii_eqb_true in Hx as <-. reflexivity.
  - intros ->. constructor. apply Ascii.eqb_refl.
Qed.

(** One to three digits followed by a percent sign. *)
Lemma humidity_re_texts s :
  lang humidity_re s <->
  exists digits,
    s = digits +:+ "%" /\ str_all re_digit digits = true /\
    (1 <= String.length digits <= 3)%nat.
Proof.
  unfold humidity_re. split.
  - intros H.
    inversion H as [| |? ? s1 t1 H1 K1| | | |]; subst.
    inversion K1 as [| |? ? s2 t2 H2 K2| | | |]; subst.
    inversion K2 as [| |? ? s3 t3 H3 K3| | | |]; subst.
    apply lang_digit in H1 as (c1 & -> & Hc1).
    apply lang_optional_digit in H2. apply lang_optional_digit in H3.
    apply lang_chr in K3 as ->.
    destruct H2 as [-> | (c2 & -> & Hc2)]; destruct H3 as [-> | (c3 & -> & Hc3)].
    + exists (String c1 EmptyString). simpl. rewrite Hc1. repeat split; lia.
    + exists (String c1 (String c3 EmptyString)). simpl. rewrite Hc1, Hc3.
      repeat split; lia.
    + exists (String c1 (String c2 EmptyString)). simpl. rewrite Hc1, Hc2.
      repeat split; lia.
    + exists (String c1 (String c2 (String c3 EmptyString))). simpl.
      rewrite Hc1, Hc2, Hc3. repeat split; lia.
  - intros (digits & -> & Hd & Hlen).
    destruct digits as [|c1 [|c2 [|c3 [|c4 rest]]]]; simpl in Hlen; try lia;
      simpl in Hd; repeat (apply andb_true_iff in Hd as [? Hd]).
    + change (lang (Cat (Cls re_digit)
                (Cat (Opt (Cls re_digit)) (Cat (Opt (Cls re_digit)) (Chr "%"))))
                (String c1 EmptyString +:+ (EmptyString +:+ (EmptyString +:+ "%")))).
      repeat apply lang_cat;
        [apply lang_digit; eauto | apply lang_optional_digit; auto
        | apply lang_optional_digit; auto | apply lang_chr; reflexivity].
    + change (lang (Cat (Cls re_digit)
                (Cat (Opt (Cls re_digit)) (Cat (Opt (Cls re_digit)) (Chr "%"))))
                (String c1 EmptyString +:+
                 (String c2 EmptyString +:+ (EmptyString +:+ "%")))).
      repeat apply lang_cat;
        [apply lang_digit; eauto | apply lang_optional_digit; eauto
        | apply lang_optional_digit; auto | apply lang_chr; reflexivity].
    + change (lang (Cat (Cls re_digit)
                (Cat (Opt (Cls re_digit)) (Cat (Opt (Cls re_digit)) (Chr "%"))))
                (String c1 EmptyString +:+
                 (String c2 EmptyString +:+ (String c3 EmptyString +:+ "%")))).
      repeat apply lang_cat;
        [apply lang_digit; eauto | apply lang_optional_digit; eauto
        | apply lang_optional_digit; eauto | apply lang_chr; reflexivity].
Qed.

(** One or two digits. *)
Lemma uv_re_texts s :
  lang uv_re s <->
  str_all re_digit s = true /\ (1 <= String.length s <= 2)%nat.
Proof.
  unfold uv_re. split.
  - intros H.
    inversion H as [| |? ? s1 t1 H1 K1| | | |]; subst.
    apply lang_digit in H1 as (c1 & -> & Hc1).
    apply lang_optional_digit in K1 as [-> | (c2 & -> & Hc2)]; simpl.
    + rewrite Hc1. split; [reflexivity | lia].
    + rewrite Hc1, Hc2. split; [reflexivity | lia].
  - intros [Hd Hlen].
    destruct s as [|c1 [|c2 [|c3 rest]]]; simpl in Hlen; try lia;
      simpl in Hd; repeat (apply andb_true_iff in Hd as [? Hd]).
    + change (lang (Cat (Cls re_digit) (Opt (Cls re_digit)))
                (String c1 EmptyString +:+ EmptyString)).
      apply lang_cat; [apply lang_digit; eauto | apply lang_optional_digit; auto].
    + change (lang (Cat (Cls re_digit) (Opt (Cls re_digit)))
                (String c1 EmptyString +:+ String c2 EmptyString)).
      apply lang_cat; [apply lang_digit; eauto | apply lang_optional_digit; eauto].
Qed.

Lemma append_last_char a x b y :
  a +:+ String x EmptyString = b +:+ String y EmptyString -> x = y.
Proof.
  intros H. apply append_same_suffix_length in H; [|reflexivity].
  injection H as ->. reflexivity.
Qed.

(** A stripped text does not end with a newline, so [$] stands at its
    end. *)
Lemma re_match_stripped body c :
  re_match body (strip c) = true <-> lang body (strip c).
Proof.
  rewrite re_match_texts. split; [|auto].
  intros [H | (t & E & _)]; [exact H|].
  apply strip_last in E. vm_compute in E. discriminate.
Qed.

Lemma re_match_percent body v :
  re_match body (strip v +:+ "%") = true <-> lang body (strip v +:+ "%").
Proof.
  rewrite re_match_texts. split; [|auto].
  intros [H | (t & E & _)]; [exact H|].
  change "%" with (String "%" EmptyString) in E.
  apply append_last_char in E. discriminate.
Qed.

Lemma validate_humidity_of_text el text :
  humidity_text el text ->
  validate_humidity (Some el) =
  Ok (if re_match humidity_re text then Some text else None) /\
  (re_match humidity_re text = true <-> lang humidity_re text).
Proof.
  intros [c Hq Hc | span0 others v Hq Hv]; split;
    try (unfold validate_humidity; rewrite Hq; cbn [bind]).
  - rewrite Hc. cbn [bind strip_method].
    destruct (re_match humidity_re (strip c)); reflexivity.
  - apply re_match_stripped.
  - rewrite Hv. cbn [bind strip_method].
    destruct (re_match humidity_re (strip v +:+ "%")); reflexivity.
  - apply re_match_percent.
Qed.

(** X4.  The humidity validator accepts exactly the texts made of one to
    three digits and a percent sign, and returns them unchanged: there is
    no upper bound of 100.  When the element has a span, the text is the
    stripped text of its first span with a percent sign added, so a span
    text that already ends with a percent sign is rejected. *)
Theorem validate_humidity_accepts el text :
  humidity_text el text ->
  (validate_humidity (Some el) = Ok (Some text) \/
   validate_humidity (Some el) = Ok None) /\
  (validate_humidity (Some el) = Ok (Some text) <->
   exists digits,
     text = digits +:+ "%" /\ str_all re_digit digits = true /\
     (1 <= String.length digits <= 3)%nat).
Proof.
  intros Ht. destruct (validate_humidity_of_text _ _ Ht) as [-> Hm].
  rewrite <- humidity_re_texts, <- Hm.
  destruct (re_match humidity_re text); split; auto; split; congruence.
Qed.

Lemma validate_humidity_accepts_witness :
  validate_humidity (Some (component_entry "Humidity" " 100 " "x")) = Ok (Some "100%").
Proof.
  destruct (validate_humidity_accepts (component_entry "Humidity" " 100 " "x") "100%"
              (humidity_text_span (component_entry "Humidity" " 100 " "x")
                 (text_node " 100 ") [text_node "x"] " 100 " eq_refl eq_refl))
    as [_ [_ H]].
  apply H. exists "100". split; [reflexivity|]. split; [reflexivity|]. simpl. lia.
Defined.

Lemma py_int_digits s :
  str_all re_digit s = true -> (1 <= String.length s <= 2)%nat ->
  py_int s = Ok (decimal_value 0 s).
Proof.
  intros Hd Hlen. unfold py_int. rewrite Hd.
  destruct s as [|c s]; [simpl in Hlen; lia|]. cbn [truthy andb].
  assert (L : Nat.ltb int_max_str_digits (String.length (String c s)) = false).
  { apply Nat.ltb_ge. unfold int_max_str_digits. lia. }
  rewrite L. reflexivity.
Qed.

Lemma validate_uv_index_of_text el text :
  uv_text el text ->
  validate_uv_index (Some el) =
  try_except value_type_attribute
    (if re_match uv_re text then
       let! uv_value := py_int text in
       if (0 <=? uv_value) && (uv_value <=? 11)
       then Ok (Some (str_of_N uv_value)) else Ok None
     else Ok None) None /\
  (re_match uv_re text = true <-> lang uv_re text).
Proof.
  intros [c Hq Hc | span0 others v Hq Hv]; split;
    try apply re_match_stripped;
    unfold validate_uv_index; rewrite Hq; cbn [bind].
  - rewrite Hc. reflexivity.
  - rewrite Hv. reflexivity.
Qed.

(** X5.  The UV validator never raises on an element whose texts can be
    read, and it accepts exactly the stripped texts made of one or two
    digits that spell a number from 0 to 11; it returns the decimal form
    of that number, so a leading zero is dropped. *)
Theorem validate_uv_index_accepts el text :
  uv_text el text ->
  (exists r, validate_uv_index (Some el) = Ok r) /\
  (forall s,
      validate_uv_index (Some el) = Ok (Some s) <->
      str_all re_digit text = true /\ (1 <= String.length text <= 2)%nat /\
      decimal_value 0 text <= 11 /\ s = str_of_N (decimal_value 0 text)).
Proof.
  intros Ht. destruct (validate_uv_index_of_text _ _ Ht) as [-> Hm].
  rewrite uv_re_texts in Hm.
  destruct (re_match uv_re text) eqn:E.
  - destruct (proj1 Hm eq_refl) as [Hd Hlen].
    rewrite (py_int_digits _ Hd Hlen). cbn [bind].
    rewrite (proj2 (N.leb_le 0 _) (N.le_0_l _)). cbn [andb].
    destruct (decimal_value 0 text <=? 11) eqn:R; cbn [try_except].
    + apply N.leb_le in R. split; [eauto|]. intros s. split.
      * intros [= <-]. auto.
      * intros (_ & _ & _ & ->). reflexivity.
    + apply N.leb_gt in R. split; [eauto|]. intros s. split.
      * discriminate.
      * intros (_ & _ & R' & _). lia.
  - cbn [try_except]. split; [eauto|]. intros s. split.
    + discriminate.
    + intros (Hd & Hlen & _). destruct Hm as [_ Hm].
      discriminate (Hm (conj Hd Hlen)).
Qed.

Lemma validate_uv_index_accepts_witness :
  validate_uv_index (Some (text_node " 07 ")) = Ok (Some "7").
Proof.
  destruct (validate_uv_index_accepts (text_node " 07 ") "07"
              (uv_text_plain (text_node " 07 ") " 07 " eq_refl eq_refl)) as [_ H].
  apply H. split; [reflexivity|]. split; [simpl; lia|].
  split; [vm_compute; discriminate | reflexivity].
Defined.

(** ** Signs of the floating-point results *)

Lemma iter_pos_invariant {A} (P : A -> Prop) (f : A -> A) :
  (forall x, P x -> P (f x)) -> forall p x, P x -> P (SpecFloat.iter_pos f p x).
Proof.
  intros Hf. induction p as [p IH|p IH|]; intros x Hx; simpl; auto.
Qed.

Lemma shr_1_nonneg mrs : (0 <= shr_m mrs)%Z -> (0 <= shr_m (shr_1 mrs))%Z.
Proof.
  destruct mrs as [m r s]. simpl.
  destruct m as [|[p|p|]|[p|p|]]; simpl; lia.
Qed.

Lemma shr_fexp_nonneg m e l :
  (0 <= m)%Z -> (0 <= shr_m (fst (shr_fexp prec emax m e l)))%Z.
Proof.
  intros Hm. unfold shr_fexp, shr.
  assert (H0 : (0 <= shr_m (shr_record_of_loc m l))%Z)
    by (destruct l as [|[]]; exact Hm).
  destruct (_ - e)%Z; simpl; try exact H0.
  apply iter_pos_invariant; [apply shr_1_nonneg | exact H0].
Qed.

Lemma round_nearest_even_nonneg m l :
  (0 <= m)%Z -> (0 <= round_nearest_even m l)%Z.
Proof.
  intros Hm. unfold round_nearest_even.
  destruct l as [|[]]; try destruct (Z.even m); lia.
Qed.

Lemma binary_round_aux_sign neg m e l :
  (0 <= m)%Z -> has_sign neg (binary_round_aux prec emax neg m e l).
Proof.
  intros Hm. unfold binary_round_aux.
  pose proof (shr_fexp_nonneg m e l Hm) as H1.
  destruct (shr_fexp prec emax m e l) as [mrs' e'] eqn:E1. simpl in H1.
  pose proof (shr_fexp_nonneg _ e' loc_Exact
                (round_nearest_even_nonneg _ (loc_of_shr_record mrs') H1)) as H2.
  destruct (shr_fexp prec emax _ e' loc_Exact) as [mrs'' e''] eqn:E2. simpl in H2.
  destruct (shr_m mrs'') as [|p|p]; simpl.
  - reflexivity.
  - destruct (e'' <=? emax - prec)%Z; reflexivity.
  - lia.
Qed.

Lemma float_of_scaled_sign neg n k : has_sign neg (float_of_scaled neg n k).
Proof.
  unfold float_of_scaled. destruct n as [|m]; [reflexivity|].
  unfold SFdiv, SFdiv_core_binary.
  match goal with
  | |- context [Z.div_eucl ?a ?b] =>
      pose proof (Z.div_pos a b) as Hq;
      unfold Z.div in Hq; destruct (Z.div_eucl a b) as [q r] eqn:E
  end.
  rewrite xorb_false_r. apply binary_round_aux_sign. apply Hq; [|lia].
  match goal with
  | |- (0 <= match ?s with _ => _ end)%Z =>
      destruct s; try lia; apply Z.shiftl_nonneg; lia
  end.
Qed.

Lemma fmul_sign v :
  has_sign false v -> has_sign false (fmul v mph_factor).
Proof.
  destruct v as [s|s| |s m e]; simpl; intros H; try contradiction; subst;
    try reflexivity.
  apply (binary_round_aux_sign false). lia.
Qed.

Lemma py_float_unsigned c rest v :
  Ascii.eqb c "-" = false ->
  py_float (String c rest) = Ok v -> has_sign false v.
Proof.
  intros Hc. unfold py_float. rewrite Hc.
  destruct (span_class re_digit (String c rest)) as [int_part tail].
  destruct (match tail with
            | EmptyString => (EmptyString, tail)
            | String x r =>
                if Ascii.eqb x "." then span_class re_digit r else (EmptyString, tail)
            end) as [frac tail'].
  destruct (truthy (int_part +:+ frac) && negb (truthy tail')); [|discriminate].
  intros [= <-]. apply float_of_scaled_sign.
Qed.

(** ** The form of the wind speed returned *)

Lemma leading_number_head s group :
  leading_number s = Some group ->
  exists c rest, group = String c rest /\ re_digit c = true.
Proof.
  unfold leading_number.
  destruct (span_class re_digit s) as [ip tail] eqn:E.
  apply span_class_spec in E as (_ & A & _).
  destruct ip as [|c ip]; [discriminate|]. simpl in A.
  apply andb_true_iff in A as [Hc _]. cbn [truthy].
  assert (forall x, Some (String c ip) = Some group \/
                    Some (String c ip +:+ "." +:+ x) = Some group ->
                    exists c' rest, group = String c' rest /\ re_digit c' = true) as K.
  { intros x [[= <-] | [= <-]]; [|rewrite append_cons]; eauto. }
  destruct tail as [|x tail]; [intros H; apply (K EmptyString); auto|].
  destruct (Ascii.eqb x "."); [|intros H; apply (K EmptyString); auto].
  destruct (span_class re_digit tail) as [frac ?].
  destruct (truthy frac); intros H; apply (K frac); auto.
Qed.

Lemma digit_is_no_minus c : re_digit c = true -> Ascii.eqb c "-" = false.
Proof.
  intros Hc. destruct (Ascii.eqb c "-") eqn:E; [|reflexivity].
  apply ascii_eqb_true in E as ->. vm_compute in Hc. discriminate.
Qed.

Lemma format_1f_unsigned v :
  has_sign false v ->
  format_1f v = "inf" \/
  exists whole d,
    format_1f v = whole +:+ "." +:+ String d EmptyString /\
    truthy whole = true /\ str_all re_digit whole = true /\ re_digit d = true.
Proof.
  destruct v as [s|s| |s m e]; simpl; intros H; try contradiction; subst.
  - right. exists "0", "0"%char. repeat split; reflexivity.
  - left. reflexivity.
  - right.
    match goal with |- context [str_of_N (Z.to_N (?t mod 10))] => set (tenths := t) end.
    destruct (str_of_N_one_digit (Z.to_N (tenths mod 10))) as [d [Hd Rd]].
    { pose proof (Z.mod_pos_bound tenths 10 eq_refl). lia. }
    rewrite Hd. rewrite append_nil_l.
    destruct (str_of_N_digits (Z.to_N (tenths / 10))) as [T A].
    eauto 10.
Qed.

Lemma lang_digits w :
  truthy w = true -> str_all re_digit w = true -> lang (Plus (Cls re_digit)) w.
Proof.
  destruct w as [|c w]; [discriminate|]. intros _ H. simpl in H.
  apply andb_true_iff in H as [Hc H]. unfold Plus.
  change (String c w) with (String c EmptyString +:+ w).
  apply lang_cat; [constructor; exact Hc|].
  induction w as [|x w IH]; [constructor|].
  simpl in H. apply andb_true_iff in H as [Hx H].
  change (String x w) with (String x EmptyString +:+ w).
  apply lang_star_more; [constructor; exact Hx | auto].
Qed.

Lemma one_decimal_kmh whole d :
  truthy whole = true -> str_all re_digit whole = true -> re_digit d = true ->
  re_match (number_with_unit "km/h")
           ((whole +:+ "." +:+ String d EmptyString) +:+ " km/h") = true.
Proof.
  intros T A D. apply re_match_lang. unfold number_with_unit, number_re.
  rewrite <- (append_nil_r (_ +:+ " km/h")).
  apply lang_cat; [|apply lang_alt_l; constructor].
  apply lang_cat.
  - apply lang_cat; [apply lang_digits; assumption|].
    apply lang_alt_r.
    apply lang_cat; [apply lang_chr; reflexivity|].
    apply lang_digits; [reflexivity | simpl; rewrite D; reflexivity].
  - change " km/h" with (String " " EmptyString +:+ "km/h").
    apply lang_cat; [|apply lang_lit; reflexivity].
    rewrite <- (append_nil_r (String " " EmptyString)).
    apply lang_star_more; [constructor; reflexivity | constructor].
Qed.

Lemma wind_speed_form text s :
  (if re_match wind_re text then
     if str_in "mph" text then
       match leading_number text with
       | Some group =>
           let! value := py_float group in
           Ok (Some (format_1f (fmul value mph_factor) +:+ " km/h"))
       | None => Raise AttributeError
       end
     else Ok (Some text)
   else Ok None) = Ok (Some s) ->
  re_match (number_with_unit "km/h") s = true \/ s = "inf km/h".
Proof.
  rewrite wind_re_units.
  destruct (re_match (number_with_unit "km/h") text) eqn:K;
    destruct (re_match (number_with_unit "mph") text) eqn:M; cbn [orb];
    try discriminate.
  - rewrite (kmh_unit_only _ K). intros [= <-]. auto.
  - rewrite (kmh_unit_only _ K). intros [= <-]. auto.
  - rewrite (mph_unit_seen _ M).
    destruct (leading_number text) as [group|] eqn:G; [|discriminate].
    destruct (leading_number_head _ _ G) as (c & rest & -> & Hc).
    destruct (py_float (String c rest)) as [value|] eqn:V; [|discriminate].
    cbn [bind]. intros [= <-].
    pose proof (py_float_unsigned _ _ _ (digit_is_no_minus _ Hc) V) as S.
    destruct (format_1f_unsigned _ (fmul_sign _ S)) as [-> | (whole & d & -> & T & A & D)].
    + right. reflexivity.
    + left. apply one_decimal_kmh; assumption.
Qed.

(** X6.  A wind speed the validator returns is itself a number followed by
    km/h, which the validator would accept again, or it is the text
    "inf km/h", which a number in mph too large for a float gives. *)
Theorem validate_wind_speed_output el s :
  validate_wind_speed el = Ok (Some s) ->
  re_match (number_with_unit "km/h") s = true \/ s = "inf km/h".
Proof.
  intros H. apply try_except_some in H.
  destruct el as [el|]; [|discriminate].
  repeat match type of H with
         | bind ?m _ = Ok _ =>
             let E := fresh "E" in
             destruct m eqn:E; cbn [bind] in H; [|discriminate H]
         end.
  exact (wind_speed_form _ _ H).
Qed.

Lemma validate_wind_speed_output_witness :
  re_match (number_with_unit "km/h") "40.2 km/h" = true \/ "40.2 km/h" = "inf km/h".
Proof.
  exact (validate_wind_speed_output (Some (text_node "25 mph")) "40.2 km/h" eq_refl).
Defined.

(** A number in mph with 310 digits is accepted and gives "inf km/h". *)
Lemma validate_wind_speed_overflow :
  validate_wind_speed (Some (text_node (String "1" (zeros 309) +:+ " mph"))) =
  Ok (Some "inf km/h").
Proof. vm_compute. reflexivity. Qed.

(** ** The weather condition *)

(** X7.  The weather-condition validator accepts exactly the non-empty
    texts and returns them stripped, so that stripping the result again
    changes nothing; [None] and the page object are rejected. *)
Theorem validate_weather_condition_stripped condition r :
  validate_weather_condition condition = Some r <->
  exists s, condition = PyStr s /\ truthy s = true /\ r = strip s /\ strip r = r.
Proof.
  split.
  - destruct condition as [|s|p]; simpl; try discriminate.
    destruct (truthy s) eqn:T; [|discriminate].
    intros [= <-]. exists s. repeat split; auto. apply strip_idempotent.
  - intros (s & -> & T & -> & _). simpl. rewrite T. reflexivity.
Qed.

(** ** The weather components *)

Lemma component_block_of_reads component alt value d :
  component_reads component alt value ->
  component_block component d =
  Ok match slot_of_alt (lower (strip alt)) with
     | Some slot => <[slot := Some (strip value)]> d
     | None => d
     end.
Proof.
  intros (img & span0 & span1 & others & Hq & Ha & Hs & Ht).
  unfold component_block, slot_of_alt. rewrite Hq. cbn [bind].
  rewrite Ha. cbn [bind strip_method]. rewrite Hs. cbn [bind].
  rewrite Ht. cbn [bind strip_method].
  destruct (str_in "humidity" _); [reflexivity|].
  destruct (str_in "wind speed" _); [reflexivity|].
  destruct (str_in "uv index" _); reflexivity.
Qed.

Lemma component_block_slots component d d' :
  component_block component d = Ok d' ->
  d' = d \/ exists slot v, slot ∈ weather_slots /\ d' = <[slot := v]> d.
Proof.
  unfold component_block, weather_slots. intros H.
  repeat outcome_step H; injection H as <-; auto; right;
    eexists _, _; (split; [|reflexivity]);
    repeat (apply elem_of_cons; auto; right).
Qed.

Lemma component_loop_app blocks1 blocks2 d :
  component_loop (blocks1 ++ blocks2) d = component_loop blocks2 (component_loop blocks1 d).
Proof.
  revert d. induction blocks1 as [|b blocks1 IH]; intros d; simpl; [reflexivity|].
  destruct (component_block b d); apply IH.
Qed.

Lemma component_loop_slots components (d : gmap string (option string)) :
  (forall k, is_Some (d !! k) <-> k ∈ weather_slots) ->
  forall k, is_Some (component_loop components d !! k) <-> k ∈ weather_slots.
Proof.
  revert d. induction components as [|c components IH]; intros d Hd; simpl; [exact Hd|].
  destruct (component_block c d) as [d'|] eqn:E; [|auto].
  apply IH. intros k.
  destruct (component_block_slots _ _ _ E) as [-> | (slot & v & Hslot & ->)]; [auto|].
  rewrite lookup_insert. case_decide; [|auto].
  subst. split; [auto | eauto].
Qed.

Lemma initial_weather_slots k :
  is_Some ((<["humidity" := None]> (<["wind_speed" := None]> (<["uv_index" := None]> ∅))
            : gmap string (option string)) !! k) <-> k ∈ weather_slots.
Proof.
  unfold weather_slots. rewrite !elem_of_cons, elem_of_nil.
  rewrite !lookup_insert_is_Some', lookup_empty, is_Some_alt. intuition.
Qed.

(** X8.  Whatever the page holds, and whether or not its queries raise,
    the weather components returned have exactly the three keys humidity,
    wind_speed and uv_index. *)
Theorem extract_weather_components_keys page k :
  is_Some (extract_weather_components page !! k) <-> k ∈ weather_slots.
Proof.
  unfold extract_weather_components.
  destruct (page_query_selector_all page ".component").
  - apply component_loop_slots, initial_weather_slots.
  - apply initial_weather_slots.
Qed.

(** X9.  A component block whose processing raises is skipped: the
    weather components are those of the list without that block. *)
Theorem extract_weather_components_isolates_fault page page' before faulty after :
  page_query_selector_all page ".component" = Ok (before ++ faulty :: after) ->
  page_query_selector_all page' ".component" = Ok (before ++ after) ->
  (forall d, exists e, component_block faulty d = Raise e) ->
  extract_weather_components page = extract_weather_components page'.
Proof.
  intros Hq Hq' Hf. unfold extract_weather_components. rewrite Hq, Hq'.
  rewrite !component_loop_app. simpl.
  match goal with
  | |- context [component_block faulty ?d] => destruct (Hf d) as [e ->]
  end.
  reflexivity.
Qed.

Lemma extract_weather_components_isolates_fault_witness :
  extract_weather_components
    (static_page "1" "2" "3"
       [component_entry "Humidity" "h" "40%"; detached_node;
        component_entry "UV Index" "u" "3"] []) =
  extract_weather_components
    (static_page "1" "2" "3"
       [component_entry "Humidity" "h" "40%"; component_entry "UV Index" "u" "3"] []).
Proof.
  apply (extract_weather_components_isolates_fault _ _
           [component_entry "Humidity" "h" "40%"] detached_node
           [component_entry "UV Index" "u" "3"]); try reflexivity.
  intros d. exists PlaywrightError. reflexivity.
Defined.

(** X10.  The last component block of the list, when it is read without
    an exception, puts the stripped text of its second span in the slot
    its image names, humidity going before wind speed and wind speed
    before uv index; the text is stored as it is, without validation. *)
Theorem extract_weather_components_last_block page before component alt value slot :
  page_query_selector_all page ".component" = Ok (before ++ [component]) ->
  component_reads component alt value ->
  slot_of_alt (lower (strip alt)) = Some slot ->
  extract_weather_components page !! slot = Some (Some (strip value)).
Proof.
  intros Hq Hr Hs. unfold extract_weather_components. rewrite Hq.
  rewrite component_loop_app. simpl.
  rewrite (component_block_of_reads _ _ _ _ Hr), Hs.
  apply lookup_insert_eq.
Qed.

Lemma extract_weather_components_last_block_witness :
  extract_weather_components
    (static_page "1" "2" "3"
       [component_entry "Humidity" "h" "40%";
        component_entry " Humidity and Wind Speed " "h" " n/a "] [])
    !! "humidity" = Some (Some "n/a").
Proof.
  apply (extract_weather_components_last_block _
           [component_entry "Humidity" "h" "40%"]
           (component_entry " Humidity and Wind Speed " "h" " n/a ")
           " Humidity and Wind Speed " " n/a " "humidity"); try reflexivity.
  exists (img_node " Humidity and Wind Speed "), (text_node "h"), (text_node " n/a "), [].
  repeat split; reflexivity.
Defined.

(** ** The record of the driver *)

#[local] Set Warnings "-clear-no-such-hyp".

Lemma dom_fill_missing (d : gmap string string) :
  dom (fill_missing d) = dom d ∪ list_to_set canonical_pollutants.
Proof.
  apply set_eq. intros k.
  rewrite elem_of_union, !elem_of_dom, elem_of_list_to_set, fill_missing_lookup.
  destruct (d !! k) eqn:E.
  - split; [left|]; eauto.
  - case_bool_decide; split; eauto.
    intros [[? ?]|?]; [discriminate | contradiction].
Qed.

Lemma dom_driver_fields t c a w ws h temp uv :
  dom (driver_fields t c a w ws h temp uv) =
  list_to_set ["timestamp"; "city"; "aqi"; "weather_condition"; "wind_speed";
               "humidity"; "temperature"; "uv_index"].
Proof.
  unfold driver_fields. rewrite !dom_insert_L, dom_empty_L. simpl.
  reflexivity.
Qed.

Lemma headers_split :
  (list_to_set headers : gset string) =
  list_to_set canonical_pollutants ∪
  list_to_set ["timestamp"; "city"; "aqi"; "weather_condition"; "wind_speed";
               "humidity"; "temperature"; "uv_index"].
Proof. apply (bool_decide_unpack _). vm_compute. exact I. Qed.

Lemma crawl_city_record_keys now page city record :
  crawl_city_data now page city = Some record ->
  dom record = list_to_set headers ∪ dom (extract_pollutants page).
Proof.
  intros H.
  destruct (crawl_city_record_shape _ _ _ _ H) as (aqi & condition & temperature & ->).
  rewrite dom_union_L, dom_fmap_L, dom_fill_missing, dom_driver_fields.
  rewrite headers_split.
  generalize (dom (extract_pollutants page)).
  generalize (list_to_set canonical_pollutants : gset string).
  generalize (list_to_set ["timestamp"; "city"; "aqi"; "weather_condition";
                           "wind_speed"; "humidity"; "temperature"; "uv_index"]
              : gset string).
  intros F C A. set_solver.
Qed.

(** X11.  The keys of a record the driver returns are exactly the fourteen
    header names and the keys of the pollutant mapping. *)
Theorem crawl_city_data_keys now page city record :
  crawl_city_data now page city = Some record ->
  dom record = list_to_set headers ∪ dom (extract_pollutants page).
Proof. apply crawl_city_record_keys. Qed.

Lemma crawl_city_data_keys_witness :
  dom radon_record = list_to_set headers ∪ dom (extract_pollutants radon_page).
Proof.
  exact (crawl_city_data_keys january_clock radon_page hanoi radon_record
           radon_page_record).
Defined.

Lemma truthy_append_l a b : truthy a = true -> truthy (a +:+ b) = true.
Proof. destruct a; [discriminate | reflexivity]. Qed.

Lemma pollutant_block_values block (d d' : gmap string string) :
  (forall k v, d !! k = Some v -> truthy v = true) ->
  pollutant_block block d = Ok d' ->
  forall k v, d' !! k = Some v -> truthy v = true.
Proof.
  intros Hd. unfold pollutant_block.
  destruct (read_block block) as [[[n v] u]|]; [|discriminate]. cbn [bind].
  destruct (opt_truthy n && opt_truthy v); [|intros [= <-]; exact Hd].
  destruct (truthy (numeric_part _)) eqn:T; intros [= <-]; [|exact Hd].
  intros k x. rewrite lookup_insert. case_decide; [|apply Hd].
  intros [= <-]. destruct (opt_truthy u); [apply truthy_append_l|]; exact T.
Qed.

Lemma pollutant_loop_values blocks (d : gmap string string) :
  (forall k v, d !! k = Some v -> truthy v = true) ->
  forall k v, pollutant_loop blocks d !! k = Some v -> truthy v = true.
Proof.
  revert d. induction blocks as [|b blocks IH]; intros d Hd; simpl; [exact Hd|].
  destruct (pollutant_block b d) as [d'|] eqn:E; [|apply IH; exact Hd].
  apply IH. eapply pollutant_block_values; eauto.
Qed.

Lemma fill_missing_values (d : gmap string string) :
  (forall k v, d !! k = Some v -> truthy v = true) ->
  forall k v, fill_missing d !! k = Some v -> truthy v = true.
Proof.
  intros Hd k v. rewrite fill_missing_lookup.
  destruct (d !! k) eqn:E; [intros [= <-]; eauto|].
  case_bool_decide; [intros [= <-]; reflexivity | discriminate].
Qed.

Lemma extract_pollutants_values page k v :
  extract_pollutants page !! k = Some v -> truthy v = true.
Proof.
  unfold extract_pollutants.
  destruct (page_query_selector_all page ".major-pollutant"); [|rewrite lookup_empty; discriminate].
  apply fill_missing_values, pollutant_loop_values.
  intros ? ?. rewrite lookup_empty. discriminate.
Qed.

(** X12.  In a record the driver returns, each of the six pollutant fields
    holds a non-empty text, the value extracted or "N/A": it is never the
    absence marker, also when the query for the pollutant list raised and
    the extractor returned an empty mapping. *)
Theorem crawl_city_data_pollutants_filled now page city record p :
  crawl_city_data now page city = Some record ->
  p ∈ canonical_pollutants ->
  exists v, record !! p = Some (Some v) /\ truthy v = true /\
            (extract_pollutants page !! p = None -> v = "N/A").
Proof.
  intros H Hp.
  destruct (crawl_city_record_shape _ _ _ _ H) as (aqi & condition & temperature & ->).
  destruct (fill_missing_canonical (extract_pollutants page) p Hp) as [v Hv].
  exists v. split; [|split].
  - apply lookup_union_Some_l. rewrite lookup_fmap, Hv. reflexivity.
  - eapply fill_missing_values; [|exact Hv]. apply extract_pollutants_values.
  - intros Hnone. rewrite fill_missing_lookup, Hnone in Hv.
    rewrite bool_decide_eq_true_2 in Hv by exact Hp. congruence.
Qed.

Lemma crawl_city_data_pollutants_filled_witness :
  exists v, plain_record !! "so2" = Some (Some v) /\ truthy v = true /\
            (extract_pollutants plain_page !! "so2" = None -> v = "N/A").
Proof.
  apply (crawl_city_data_pollutants_filled january_clock plain_page hanoi plain_record
           "so2" plain_page_record).
  unfold canonical_pollutants. repeat (apply elem_of_cons; auto; right).
Defined.

(** X13.  When the query for the pollutant list raises, the extractor
    returns the empty mapping, without the six defaults; when it does
    not, the mapping has the six canonical keys and the loop of the
    driver that fills them in again changes nothing. *)
Theorem extract_pollutants_defaults page :
  (forall e, page_query_selector_all page ".major-pollutant" = Raise e ->
             extract_pollutants page = ∅) /\
  (forall blocks, page_query_selector_all page ".major-pollutant" = Ok blocks ->
                  fill_missing (extract_pollutants page) = extract_pollutants page /\
                  dom (extract_pollutants page) =
                    dom (pollutant_loop blocks ∅) ∪ list_to_set canonical_pollutants).
Proof.
  unfold extract_pollutants. split.
  - intros e ->. reflexivity.
  - intros blocks ->. split; [apply fill_missing_idempotent | apply dom_fill_missing].
Qed.

Lemma crawl_city_body_lists now page city record components pollutants :
  crawl_city_body now page city = Ok record ->
  exists record',
    crawl_city_body now (with_lists page components pollutants) city = Ok record'.
Proof.
  unfold crawl_city_body, extract_temperature.
  cbn [goto wait_for_load_state page_query_selector with_lists
       validate_weather_condition opt_truthy].
  intros H.
  repeat (first
    [ match type of H with
      | bind ?m _ = Ok _ => destruct m; cbn [bind] in H |- *; [|discriminate H]
      end
    | match type of H with
      | (if ?b then _ else _) = Ok _ => destruct b
      end ]).
  all: eauto.
Qed.

Lemma crawl_city_body_without_lists now page city record components pollutants :
  crawl_city_body now (with_lists page components pollutants) city = Ok record ->
  exists record', crawl_city_body now page city = Ok record'.
Proof.
  unfold crawl_city_body, extract_temperature.
  cbn [goto wait_for_load_state page_query_selector with_lists
       validate_weather_condition opt_truthy].
  intros H.
  repeat (first
    [ match type of H with
      | bind ?m _ = Ok _ => destruct m; cbn [bind] in H |- *; [|discriminate H]
      end
    | match type of H with
      | (if ?b then _ else _) = Ok _ => destruct b
      end ]).
  all: eauto.
Qed.

(** X14.  Whether the driver returns a record does not depend on the
    component and pollutant lists, nor on the queries for them raising:
    replacing the two list queries of a page changes no outcome. *)
Theorem crawl_city_data_ignores_lists now page city components pollutants :
  is_Some (crawl_city_data now (with_lists page components pollutants) city) <->
  is_Some (crawl_city_data now page city).
Proof.
  unfold crawl_city_data. split.
  - destruct (crawl_city_body now (with_lists page components pollutants) city)
      as [r|] eqn:E; [|intros [? ?]; discriminate].
    destruct (crawl_city_body_without_lists _ _ _ _ _ _ E) as [r' ->]. eauto.
  - destruct (crawl_city_body now page city) as [r|] eqn:E;
      [|intros [? ?]; discriminate].
    destruct (crawl_city_body_lists _ _ _ _ components pollutants E) as [r' ->]. eauto.
Qed.

Ltac outcome_hyps :=
  repeat match goal with
         | H : bind ?m _ = Ok _ |- _ =>
             let E := fresh "E" in
             destruct m eqn:E; cbn [bind] in H; [|discriminate H]
         | H : (if ?b then _ else _) = Ok _ |- _ =>
             let E := fresh "E" in destruct b eqn:E
         end.

(** Where the fields the driver sets itself come from. *)
Lemma crawl_city_record_fields now page city record :
  crawl_city_data now page city = Some record ->
  exists aqi_element aqi wc_elem raw temperature,
    page_query_selector page "span.font-extrabold" = Ok aqi_element /\
    validate_aqi aqi_element = Ok aqi /\
    page_query_selector page "span.condition-text" = Ok wc_elem /\
    match wc_elem with
    | Some e =>
        let! t := text_content e in
        Ok (match t with Some s => PyStr s | None => PyNone end)
    | None => Ok (PyStr EmptyString)
    end = Ok raw /\
    record =
    (Some <$> fill_missing (extract_pollutants page)) ∪
    driver_fields (Some (isoformat now)) (Some (display_name city)) aqi
      (validate_weather_condition raw)
      (dict_get (extract_weather_components page) "wind_speed")
      (dict_get (extract_weather_components page) "humidity")
      temperature
      (dict_get (extract_weather_components page) "uv_index").
Proof.
  unfold crawl_city_data.
  destruct (crawl_city_body now page city) as [r|] eqn:H; [|discriminate].
  intros [= ->]. unfold crawl_city_body in H.
  cbn [validate_weather_condition opt_truthy] in H.
  outcome_hyps;
    repeat match goal with
           | H : Ok _ = Ok _ |- _ => injection H as H; subst
           end;
    eexists _, _, _, _, _; repeat split; eauto.
Qed.

Lemma lookup_driver_field (pollutants : gmap string string)
    (fields : gmap string (option string)) k :
  pollutants !! k = None -> k ∉ canonical_pollutants ->
  ((Some <$> fill_missing pollutants) ∪ fields) !! k = fields !! k.
Proof.
  intros Hk Hc. apply lookup_union_r.
  rewrite lookup_fmap, fill_missing_lookup, Hk.
  rewrite bool_decide_eq_false_2 by exact Hc. reflexivity.
Qed.

Lemma not_canonical k :
  k ∈ ["timestamp"; "city"; "aqi"; "weather_condition"; "wind_speed";
       "humidity"; "temperature"; "uv_index"] ->
  k ∉ canonical_pollutants.
Proof.
  intros H Hc. unfold canonical_pollutants in Hc.
  repeat (apply elem_of_cons in H as [-> | H];
          [repeat (apply elem_of_cons in Hc as [Hc | Hc]; [discriminate Hc|]);
           apply elem_of_nil in Hc; contradiction|]).
  apply elem_of_nil in H. contradiction.
Qed.

(** X15.  In a record the driver returns, the timestamp is the ISO text of
    the clock reading, the city is the display name and the AQI is what
    the AQI validator returns for the element span.font-extrabold, each
    unless a pollutant block was normalized to that very key, in which
    case the value of the block replaces it. *)
Theorem crawl_city_data_fields now page city record :
  crawl_city_data now page city = Some record ->
  (forall k v, extract_pollutants page !! k = Some v -> record !! k = Some (Some v)) /\
  (extract_pollutants page !! "timestamp" = None ->
   record !! "timestamp" = Some (Some (isoformat now))) /\
  (extract_pollutants page !! "city" = None ->
   record !! "city" = Some (Some (display_name city))) /\
  (extract_pollutants page !! "aqi" = None ->
   exists aqi_element aqi,
     page_query_selector page "span.font-extrabold" = Ok aqi_element /\
     validate_aqi aqi_element = Ok aqi /\
     record !! "aqi" = Some aqi).
Proof.
  intros H.
  split; [intros k v; exact (record_takes_pollutant now page city record k v H)|].
  destruct (crawl_city_record_fields _ _ _ _ H)
    as (aqi_element & aqi & wc_elem & raw & temperature & Hq & Hv & _ & _ & ->).
  split; [|split].
  - intros Hk. rewrite lookup_driver_field; [reflexivity | exact Hk|].
    apply not_canonical. repeat (apply elem_of_cons; auto; right).
  - intros Hk. rewrite lookup_driver_field; [reflexivity | exact Hk|].
    apply not_canonical. repeat (apply elem_of_cons; auto; right).
  - intros Hk. exists aqi_element, aqi. split; [exact Hq|]. split; [exact Hv|].
    rewrite lookup_driver_field; [reflexivity | exact Hk|].
    apply not_canonical. repeat (apply elem_of_cons; auto; right).
Qed.

Lemma crawl_city_data_fields_witness :
  plain_record !! "timestamp" = Some (Some (isoformat january_clock)).
Proof.
  destruct (crawl_city_data_fields january_clock plain_page hanoi plain_record
              plain_page_record) as (_ & T & _).
  apply T. vm_compute. reflexivity.
Defined.

(** Every key of the pollutant mapping is a value of the normalizer. *)
Lemma pollutant_block_keys block (d d' : gmap string string) :
  (forall k, is_Some (d !! k) -> exists label, k = normalize_pollutant_name label) ->
  pollutant_block block d = Ok d' ->
  forall k, is_Some (d' !! k) -> exists label, k = normalize_pollutant_name label.
Proof.
  intros Hd. unfold pollutant_block.
  destruct (read_block block) as [[[n v] u]|]; [|discriminate]. cbn [bind].
  destruct (opt_truthy n && opt_truthy v); [|intros [= <-]; exact Hd].
  destruct (truthy (numeric_part _)); intros [= <-]; [|exact Hd].
  intros k. rewrite lookup_insert. case_decide; [|apply Hd].
  intros _. subst. eauto.
Qed.

Lemma pollutant_loop_keys blocks (d : gmap string string) :
  (forall k, is_Some (d !! k) -> exists label, k = normalize_pollutant_name label) ->
  forall k, is_Some (pollutant_loop blocks d !! k) ->
            exists label, k = normalize_pollutant_name label.
Proof.
  revert d. induction blocks as [|b blocks IH]; intros d Hd; simpl; [exact Hd|].
  destruct (pollutant_block b d) as [d'|] eqn:E; [|apply IH; exact Hd].
  apply IH. eapply pollutant_block_keys; eauto.
Qed.

Lemma extract_pollutants_keys page k :
  is_Some (extract_pollutants page !! k) ->
  exists label, k = normalize_pollutant_name label.
Proof.
  unfold extract_pollutants.
  destruct (page_query_selector_all page ".major-pollutant") as [blocks|];
    [|rewrite lookup_empty; intros [? ?]; discriminate].
  rewrite fill_missing_lookup.
  destruct (pollutant_loop blocks ∅ !! k) eqn:E.
  - intros _. apply (pollutant_loop_keys blocks ∅); [|rewrite E; eauto].
    intros ?. rewrite lookup_empty. intros [? ?]. discriminate.
  - case_bool_decide as Hc; [|intros [? ?]; discriminate].
    intros _. exists k. unfold canonical_pollutants in Hc.
    repeat (apply elem_of_cons in Hc as [-> | Hc]; [reflexivity|]).
    apply elem_of_nil in Hc. contradiction.
Qed.

Lemma weather_condition_is_no_pollutant_key page :
  extract_pollutants page !! "weather_condition" = None.
Proof.
  destruct (extract_pollutants page !! "weather_condition") eqn:E; [|reflexivity].
  exfalso.
  destruct (extract_pollutants_keys page "weather_condition") as [label Hl];
    [rewrite E; eauto|].
  destruct (normalize_pollutant_name_in_range label) as [Hc | (Hnone & _)];
    rewrite <- Hl in *.
  - unfold canonical_pollutants in Hc.
    repeat (apply elem_of_cons in Hc as [Hc | Hc]; [discriminate Hc|]).
    apply elem_of_nil in Hc. contradiction.
  - apply (Hnone ("co", "co")).
    + unfold pollutant_table. repeat (apply elem_of_cons; auto; right).
    + apply str_in_spec. reflexivity.
Qed.

(** X16.  No pollutant block can replace the weather condition of a
    record, because a name that holds "co" is normalized to co.  The
    field is always what the validator returns for the text of
    span.condition-text, for [None] when the element has no text and for
    the empty text when the element is missing: the first validation,
    applied to the page object, always fails. *)
Theorem crawl_city_data_weather_condition now page city record :
  crawl_city_data now page city = Some record ->
  exists wc_elem raw,
    page_query_selector page "span.condition-text" = Ok wc_elem /\
    match wc_elem with
    | Some e =>
        let! t := text_content e in
        Ok (match t with Some s => PyStr s | None => PyNone end)
    | None => Ok (PyStr EmptyString)
    end = Ok raw /\
    record !! "weather_condition" = Some (validate_weather_condition raw).
Proof.
  intros H.
  destruct (crawl_city_record_fields _ _ _ _ H)
    as (aqi_element & aqi & wc_elem & raw & temperature & _ & _ & Hq & Hr & ->).
  exists wc_elem, raw. split; [exact Hq|]. split; [exact Hr|].
  rewrite lookup_driver_field; [reflexivity|apply weather_condition_is_no_pollutant_key|].
  apply not_canonical. repeat (apply elem_of_cons; auto; right).
Qed.

Lemma crawl_city_data_weather_condition_witness :
  plain_record !! "weather_condition" = Some None.
Proof.
  destruct (crawl_city_data_weather_condition january_clock plain_page hanoi
              plain_record plain_page_record) as (wc_elem & raw & Hq & Hr & ->).
  injection Hq as <-. injection Hr as <-. reflexivity.
Defined.

(** X17.  The temperature extractor has no exception handler of its own:
    when both temperature spans are found and one of them has no text,
    the driver returns no record at all, instead of falling back to the
    forecast label. *)
Theorem crawl_city_data_temperature_without_text now page city value_elem unit_elem :
  page_query_selector page "span.text-\[2\.5rem\]" = Ok (Some value_elem) ->
  page_query_selector page "span.text-\[1\.7rem\]" = Ok (Some unit_elem) ->
  text_content value_elem = Ok None \/
  (exists v, text_content value_elem = Ok (Some v)) /\ text_content unit_elem = Ok None ->
  crawl_city_data now page city = None.
Proof.
  intros Hv Hu Htext.
  assert (T : extract_temperature page = Raise AttributeError).
  { unfold extract_temperature. rewrite Hv, Hu. cbn [bind].
    destruct Htext as [-> | [[v ->] ->]]; reflexivity. }
  unfold crawl_city_data, crawl_city_body. rewrite T.
  cbn [validate_weather_condition opt_truthy].
  repeat match goal with
         | |- context [bind ?m _] => destruct m; cbn [bind]
         end; reflexivity.
Qed.

Lemma crawl_city_data_temperature_without_text_witness :
  crawl_city_data january_clock
    (mkPage (fun _ => Ok tt) (fun _ => Ok tt)
       (fun _ => Ok (Some (mkHandle (fun _ => Ok None) (Ok None)
                                    (fun _ => Ok None) (fun _ => Ok []))))
       (fun _ => Ok [])) hanoi = None.
Proof.
  apply (crawl_city_data_temperature_without_text _ _ _
           (mkHandle (fun _ => Ok None) (Ok None) (fun _ => Ok None) (fun _ => Ok []))
           (mkHandle (fun _ => Ok None) (Ok None) (fun _ => Ok None) (fun _ => Ok [])));
    try reflexivity.
  left. reflexivity.
Defined.

(** ** The files of the sink *)

Lemma save_to_csv_other_files now data city_name fs path :
  path <> output_path now city_name ->
  files (fst (save_to_csv now data city_name fs)) !! path = files fs !! path.
Proof.
  intros Hne. unfold save_to_csv. fold (output_path now city_name).
  set (out := output_path now city_name) in *.
  unfold open_append, append_row. cbn [files dirs].
  destruct (files fs !! out) as [rows|] eqn:E; cbn [files dirs].
  - rewrite bool_decide_eq_true_2 by eauto.
    destruct (dict_to_row headers data); cbn [fst files]; [|reflexivity].
    apply lookup_insert_ne. congruence.
  - rewrite bool_decide_eq_false_2 by (intros [? ?]; discriminate).
    destruct (dict_to_row headers data); cbn [fst files];
      rewrite ?lookup_insert_ne by congruence; reflexivity.
Qed.

Lemma data_rows_width data :
  Forall (fun row => length row = length headers) (data_rows data).
Proof.
  unfold data_rows, dict_to_row. case_bool_decide; [|constructor].
  constructor; [apply length_map | constructor].
Qed.

Lemma save_to_csv_keeps_well_formed now data city_name fs :
  well_formed_files fs ->
  well_formed_files (fst (save_to_csv now data city_name fs)).
Proof.
  intros Hfs path rows.
  destruct (decide (path = output_path now city_name)) as [-> | Hne].
  - rewrite save_to_csv_file. intros [= <-].
    destruct (files fs !! output_path now city_name) as [old|] eqn:E; simpl.
    + destruct (Hfs _ _ E) as [[tail ->] Hw]. split.
      * exists (tail ++ data_rows data). reflexivity.
      * apply Forall_app. split; [exact Hw | apply data_rows_width].
    + split; [eauto|].
      constructor; [reflexivity | apply data_rows_width].
  - rewrite save_to_csv_other_files by exact Hne. apply Hfs.
Qed.

(** X18.  A call of the sink changes no file but its own output file, and
    it keeps the files well formed: if every file began with the header
    row and had fourteen cells in every row before the call, so it is
    after it, whether the call returns or raises. *)
Theorem save_to_csv_frame now data city_name fs :
  (forall path, path <> output_path now city_name ->
     files (fst (save_to_csv now data city_name fs)) !! path = files fs !! path) /\
  (well_formed_files fs ->
   well_formed_files (fst (save_to_csv now data city_name fs))).
Proof.
  split.
  - intros path. apply save_to_csv_other_files.
  - apply save_to_csv_keeps_well_formed.
Qed.

Lemma mkdir_parents_grows made todo (d : gset string) :
  d ⊆ mkdir_parents made todo d.
Proof.
  revert made d. induction todo as [|part todo IH]; intros made d; simpl;
    [reflexivity|].
  etransitivity; [|apply IH]. apply union_subseteq_r.
Qed.

(** X19.  A call of the sink removes no directory, and for a city slug
    that is one path component it leaves the directories result and
    result/<slug> in place. *)
Theorem save_to_csv_directories now data city_name fs :
  path_component city_name ->
  dirs fs ⊆ dirs (fst (save_to_csv now data city_name fs)) /\
  "result" ∈ dirs (fst (save_to_csv now data city_name fs)) /\
  "result/" +:+ city_name ∈ dirs (fst (save_to_csv now data city_name fs)).
Proof.
  intros Hc.
  assert (D : dirs (fst (save_to_csv now data city_name fs)) =
              mkdir_parents [] (path_parts ("result/" +:+ city_name)) (dirs fs)).
  { unfold save_to_csv, open_append, append_row. cbn [files dirs].
    repeat match goal with
           | |- context [match ?x with _ => _ end] => destruct x; cbn [fst files dirs]
           end; reflexivity. }
  rewrite D. split; [apply mkdir_parents_grows|].
  rewrite (path_parts_result _ Hc). cbn [mkdir_parents app join_path].
  split.
  - apply elem_of_union_r, elem_of_union_l, elem_of_singleton. reflexivity.
  - apply elem_of_union_l, elem_of_singleton. reflexivity.
Qed.

Lemma save_to_csv_directories_witness :
  "result/hanoi" ∈ dirs (fst (save_to_csv february_clock plain_record "hanoi" empty_fs)).
Proof.
  apply (save_to_csv_directories february_clock plain_record "hanoi" empty_fs).
  split; [reflexivity | split; [discriminate | reflexivity]].
Defined.

(** ** The output paths *)

Lemma append_inj_l p a b : p +:+ a = p +:+ b -> a = b.
Proof.
  induction p as [|c p IH]; [rewrite !append_nil_l; auto|].
  rewrite !append_cons. intros [= H]. auto.
Qed.

Lemma split_at_separator sep a b a' b' :
  str_all (fun c => negb (Ascii.eqb c sep)) a = true ->
  str_all (fun c => negb (Ascii.eqb c sep)) a' = true ->
  a +:+ String sep b = a' +:+ String sep b' ->
  a = a' /\ b = b'.
Proof.
  revert a'. induction a as [|c a IH]; intros [|c' a'] Ha Ha'.
  - rewrite !append_nil_l. intros [= ->]. auto.
  - rewrite append_nil_l, append_cons. intros [= <- _].
    simpl in Ha'. rewrite Ascii.eqb_refl in Ha'. discriminate.
  - rewrite append_nil_l, append_cons. intros [= -> _].
    simpl in Ha. rewrite Ascii.eqb_refl in Ha. discriminate.
  - rewrite !append_cons. intros [= -> H].
    simpl in Ha, Ha'. apply andb_prop in Ha as [_ Ha], Ha' as [_ Ha'].
    destruct (IH _ Ha Ha' H) as [-> ->]. auto.
Qed.

Lemma str_of_N_inj m n : str_of_N m = str_of_N n -> m = n.
Proof.
  unfold str_of_N. intros H.
  assert (K : forall k, N.to_uint k <> Decimal.Nil).
  { intros [|p]; [discriminate | apply DecimalPos.Unsigned.to_uint_nonnil]. }
  apply DecimalN.Unsigned.to_uint_inj.
  apply (f_equal NilZero.uint_of_string) in H.
  rewrite !NilZero.usu in H by apply K. congruence.
Qed.

Lemma str_of_N_no_underscore n :
  str_all (fun c => negb (Ascii.eqb c "_")) (str_of_N n) = true.
Proof.
  apply (str_all_weaken re_digit); [|apply str_of_N_digits].
  intros c Hc. destruct (Ascii.eqb_spec c "_") as [-> |]; [discriminate | reflexivity].
Qed.

Lemma month_number_strftime now :
  1 <= month now <= 12 -> month_number (lower (strftime_b now)) = month now.
Proof.
  unfold strftime_b. generalize (month now) as m.
  intros m [Hlow Hhigh].
  assert (Hlt : m < N.of_nat 13) by lia. clear Hhigh.
  revert Hlow. pattern m. revert m Hlt. apply (below_bound_cases _ 13).
  intros i Hi Hlow.
  destruct i as [|i]; [lia|].
  do 12 (destruct i as [|i]; [reflexivity|]).
  lia.
Qed.

Lemma month_name_no_dot now :
  1 <= month now <= 12 ->
  str_all (fun c => negb (Ascii.eqb c ".")) (lower (strftime_b now)) = true.
Proof.
  unfold strftime_b. generalize (month now) as m.
  intros m [Hlow Hhigh].
  assert (Hlt : m < N.of_nat 13) by lia. clear Hhigh.
  revert Hlow. pattern m. revert m Hlt. apply (below_bound_cases _ 13).
  intros i Hi Hlow.
  destruct i as [|i]; [lia|].
  do 12 (destruct i as [|i]; [reflexivity|]).
  lia.
Qed.

Lemma output_path_inj now1 now2 city1 city2 :
  1 <= month now1 <= 12 -> 1 <= month now2 <= 12 ->
  path_component city1 -> path_component city2 ->
  output_path now1 city1 = output_path now2 city2 ->
  city1 = city2 /\ year now1 = year now2 /\ month now1 = month now2.
Proof.
  intros Hm1 Hm2 Hc1 Hc2.
  rewrite (output_path_text _ _ Hm1 Hc1), (output_path_text _ _ Hm2 Hc2).
  intros H. apply append_inj_l in H.
  rewrite !append_cons, !append_nil_l in H.
  destruct Hc1 as (_ & _ & Hs1), Hc2 as (_ & _ & Hs2).
  apply split_at_separator in H as [-> H]; [|assumption..].
  split; [reflexivity|].
  injection H as H. apply append_inj_l in H. injection H as H.
  apply split_at_separator in H as [Hy H]; [|apply str_of_N_no_underscore..].
  apply str_of_N_inj in Hy. split; [exact Hy|].
  change ".csv" with (String "." "csv") in H.
  apply split_at_separator in H as [H _]; [|apply month_name_no_dot; assumption..].
  rewrite <- (month_number_strftime now1 Hm1), <- (month_number_strftime now2 Hm2).
  rewrite H. reflexivity.
Qed.

(** X20.  For city slugs that are one path component and clock readings
    with a month from one to twelve, two calls of the sink use the same
    output file only when the slug, the year and the month are the same. *)
Theorem output_path_injective now1 now2 city1 city2 :
  valid_month now1 -> valid_month now2 ->
  path_component city1 -> path_component city2 ->
  output_path now1 city1 = output_path now2 city2 ->
  city1 = city2 /\ year now1 = year now2 /\ month now1 = month now2.
Proof. apply output_path_inj. Qed.

Lemma output_path_injective_witness :
  year january_clock = year (mkDatetime 2024 1 5 8 30 0 0) /\
  month january_clock = month (mkDatetime 2024 1 5 8 30 0 0).
Proof.
  assert (C : path_component "hanoi")
    by (split; [reflexivity | split; [discriminate | reflexivity]]).
  assert (M1 : valid_month january_clock) by (unfold valid_month; simpl; lia).
  assert (M2 : valid_month (mkDatetime 2024 1 5 8 30 0 0))
    by (unfold valid_month; simpl; lia).
  apply (output_path_injective january_clock (mkDatetime 2024 1 5 8 30 0 0)
           "hanoi" "hanoi" M1 M2 C C).
  vm_compute. reflexivity.
Defined.

(** ** The run over the city table *)

Lemma crawl_city_record_nonempty now page city record :
  crawl_city_data now page city = Some record -> record <> ∅.
Proof.
  intros H.
  destruct (crawl_city_record_shape _ _ _ _ H) as (aqi & condition & temperature & ->).
  intros E. apply (f_equal (fun m => m !! "timestamp")) in E.
  rewrite lookup_empty in E. apply lookup_union_None in E as [_ E].
  discriminate E.
Qed.

Lemma visit_city_results city session fs acc :
  snd (visit_city city session (fs, acc)) =
  acc ++ option_list (city_record city session).
Proof.
  unfold visit_city, city_record.
  destruct (new_page session) as [page|e]; simpl; [|rewrite app_nil_r; reflexivity].
  destruct (crawl_city_data (crawl_time session) page city) as [data|] eqn:E; simpl;
    [|rewrite app_nil_r; reflexivity].
  rewrite bool_decide_eq_false_2 by exact (crawl_city_record_nonempty _ _ _ _ E).
  reflexivity.
Qed.

Lemma visit_city_files city session fs acc :
  fst (visit_city city session (fs, acc)) =
  match city_record city session with
  | Some data => fst (save_to_csv (save_time session) data (name city) fs)
  | None => fs
  end.
Proof.
  unfold visit_city, city_record.
  destruct (new_page session) as [page|e]; simpl; [|reflexivity].
  destruct (crawl_city_data (crawl_time session) page city) as [data|] eqn:E; simpl;
    [|reflexivity].
  rewrite bool_decide_eq_false_2 by exact (crawl_city_record_nonempty _ _ _ _ E).
  reflexivity.
Qed.

Lemma crawl_cities_results world cities fs acc :
  snd (crawl_cities (map (fun city => (city, world city)) cities) (fs, acc)) =
  acc ++ omap (fun city => city_record city (world city)) cities.
Proof.
  revert fs acc. induction cities as [|city cities IH]; intros fs acc; cbn [map crawl_cities snd omap list_omap].
  - rewrite app_nil_r. reflexivity.
  - pose proof (visit_city_results city (world city) fs acc) as R.
    destruct (visit_city city (world city) (fs, acc)) as [fs' acc'].
    simpl in R. subst acc'. rewrite IH, <- app_assoc. f_equal.
    destruct (city_record city (world city)); reflexivity.
Qed.

(** X21.  The run returns the records of the cities whose page session
    gave a record, in the order of the city table: a record the driver
    returns is never skipped as empty, and it is kept whether or not
    saving it raised. *)
Theorem crawl_all_cities_results world fs :
  snd (crawl_all_cities world fs) =
  omap (fun city => city_record city (world city)) CITIES.
Proof. exact (crawl_cities_results world CITIES fs []). Qed.

Lemma visit_city_well_formed city session fs acc :
  well_formed_files fs -> well_formed_files (fst (visit_city city session (fs, acc))).
Proof.
  intros H. rewrite visit_city_files.
  destruct (city_record city session); [|exact H].
  apply save_to_csv_keeps_well_formed, H.
Qed.

Lemma crawl_cities_well_formed world cities fs acc :
  well_formed_files fs ->
  well_formed_files
    (fst (crawl_cities (map (fun city => (city, world city)) cities) (fs, acc))).
Proof.
  revert fs acc. induction cities as [|city cities IH]; intros fs acc H; cbn [map crawl_cities fst]; [exact H|].
  pose proof (visit_city_well_formed city (world city) fs acc H) as W.
  destruct (visit_city city (world city) (fs, acc)) as [fs' acc'].
  apply IH, W.
Qed.

(** X22.  The run keeps the files well formed: if every file began with
    the header row and had fourteen cells in every row before the run, so
    it is after it, whatever the pages show and whichever sessions fail. *)
Theorem crawl_all_cities_well_formed world fs :
  well_formed_files fs -> well_formed_files (fst (crawl_all_cities world fs)).
Proof. apply crawl_cities_well_formed. Qed.

Lemma crawl_all_cities_well_formed_witness :
  well_formed_files (fst (crawl_all_cities steady_world empty_fs)).
Proof.
  apply (crawl_all_cities_well_formed steady_world empty_fs).
  intros path rows H. simpl in H. rewrite lookup_empty in H. discriminate H.
Defined.

Lemma visit_city_other_files city session fs acc path :
  path <> output_path (save_time session) (name city) ->
  files (fst (visit_city city session (fs, acc))) !! path = files fs !! path.
Proof.
  intros H. rewrite visit_city_files.
  destruct (city_record city session); [|reflexivity].
  apply save_to_csv_other_files, H.
Qed.

Lemma crawl_cities_other_files world cities fs acc path :
  (forall city, city ∈ cities ->
     path <> output_path (save_time (world city)) (name city)) ->
  files (fst (crawl_cities (map (fun city => (city, world city)) cities) (fs, acc)))
    !! path = files fs !! path.
Proof.
  revert fs acc. induction cities as [|city cities IH]; intros fs acc H; cbn [map crawl_cities fst];
    [reflexivity|].
  pose proof (visit_city_other_files city (world city) fs acc path
                (H city (list_elem_of_here _ _))) as W.
  destruct (visit_city city (world city) (fs, acc)) as [fs' acc'].
  rewrite IH; [exact W|].
  intros c Hc. apply H. apply list_elem_of_further, Hc.
Qed.

(** X23.  The run changes no file other than the output files of the
    cities of the table. *)
Theorem crawl_all_cities_other_files world fs path :
  (forall city, city ∈ CITIES ->
     path <> output_path (save_time (world city)) (name city)) ->
  files (fst (crawl_all_cities world fs)) !! path = files fs !! path.
Proof. apply crawl_cities_other_files. Qed.

Lemma crawl_all_cities_other_files_witness :
  files (fst (crawl_all_cities steady_world empty_fs)) !! "result/hanoi/notes.txt" =
  files empty_fs !! "result/hanoi/notes.txt".
Proof.
  apply (crawl_all_cities_other_files steady_world empty_fs "result/hanoi/notes.txt").
  intros city H. unfold CITIES in H.
  repeat (apply elem_of_cons in H as [-> | H]; [vm_compute; discriminate|]).
  apply elem_of_nil in H. contradiction.
Defined.

Lemma visit_city_own_file city session fs acc :
  files (fst (visit_city city session (fs, acc)))
    !! output_path (save_time session) (name city) =
  match city_record city session with
  | Some data =>
      Some (default [headers]
              (files fs !! output_path (save_time session) (name city)) ++
            data_rows data)
  | None => files fs !! output_path (save_time session) (name city)
  end.
Proof.
  rewrite visit_city_files.
  destruct (city_record city session); [apply save_to_csv_file | reflexivity].
Qed.

Lemma crawl_cities_own_file world cities fs acc city :
  NoDup (name <$> cities) ->
  Forall (fun c => path_component (name c)) cities ->
  (forall c, c ∈ cities -> 1 <= month (save_time (world c)) <= 12) ->
  city ∈ cities ->
  files (fst (crawl_cities (map (fun c => (c, world c)) cities) (fs, acc)))
    !! output_path (save_time (world city)) (name city) =
  match city_record city (world city) with
  | Some data =>
      Some (default [headers]
              (files fs !! output_path (save_time (world city)) (name city)) ++
            data_rows data)
  | None => files fs !! output_path (save_time (world city)) (name city)
  end.
Proof.
  revert fs acc. induction cities as [|c cities IH]; intros fs acc Hnd Hpc Hm Hin.
  - apply elem_of_nil in Hin. contradiction.
  - rewrite fmap_cons in Hnd. apply NoDup_cons in Hnd as [Hc Hnd].
    apply Forall_cons in Hpc as [Hpc1 Hpc].
    assert (Hother : forall a, a ∈ cities ->
              output_path (save_time (world c)) (name c) <>
              output_path (save_time (world a)) (name a)).
    { intros a Ha E.
      apply output_path_inj in E as (E & _).
      - apply Hc. rewrite E. apply list_elem_of_fmap_2, Ha.
      - apply Hm, list_elem_of_here.
      - apply Hm, list_elem_of_further, Ha.
      - exact Hpc1.
      - exact (proj1 (Forall_forall _ _) Hpc a Ha). }
    cbn [map crawl_cities].
    apply elem_of_cons in Hin as [-> | Hin].
    + pose proof (visit_city_own_file c (world c) fs acc) as W.
      destruct (visit_city c (world c) (fs, acc)) as [fs' acc'].
      rewrite crawl_cities_other_files by exact Hother. exact W.
    + pose proof (visit_city_other_files c (world c) fs acc
                    (output_path (save_time (world city)) (name city))) as W.
      destruct (visit_city c (world c) (fs, acc)) as [fs' acc'].
      simpl in W.
      rewrite IH; try assumption.
      * rewrite W; [reflexivity|]. intros E. symmetry in E. exact (Hother _ Hin E).
      * intros a Ha. apply Hm, list_elem_of_further, Ha.
Qed.

Lemma city_slugs :
  NoDup (name <$> CITIES) /\ Forall (fun c => path_component (name c)) CITIES.
Proof.
  split.
  - apply (bool_decide_unpack _). vm_compute. exact I.
  - unfold CITIES, path_component.
    repeat (apply Forall_cons; split;
            [split; [reflexivity | split; [discriminate | reflexivity]]|]).
    apply Forall_nil. exact I.
Qed.

(** X24.  When the clock of every save reads a month from one to twelve,
    no city of the table writes to the output file of another.  When the
    session of a city gave a record, its output file holds after the run
    what it held before it (or the header row, when it did not exist),
    followed by the row of the record when its keys are all header names
    and by nothing when they are not; when the session gave no record,
    the file is as it was before the run. *)
Theorem crawl_all_cities_file world fs city :
  (forall c, c ∈ CITIES -> valid_month (save_time (world c))) ->
  city ∈ CITIES ->
  files (fst (crawl_all_cities world fs))
    !! output_path (save_time (world city)) (name city) =
  match city_record city (world city) with
  | Some data =>
      Some (default [headers]
              (files fs !! output_path (save_time (world city)) (name city)) ++
            data_rows data)
  | None => files fs !! output_path (save_time (world city)) (name city)
  end.
Proof.
  intros Hm Hin. destruct city_slugs as [Hnd Hpc].
  apply crawl_cities_own_file; assumption.
Qed.

Lemma crawl_all_cities_file_witness :
  files (fst (crawl_all_cities steady_world empty_fs))
    !! output_path february_clock "hanoi" =
  Some ([headers] ++ data_rows ha_noi_record).
Proof.
  assert (R : city_record ha_noi (steady_world ha_noi) = Some ha_noi_record).
  { refine (returned_record january_clock plain_page ha_noi _).
    vm_compute. reflexivity. }
  assert (M : forall c, c ∈ CITIES -> valid_month (save_time (steady_world c)))
    by (intros c _; unfold valid_month; simpl; lia).
  assert (I : ha_noi ∈ CITIES) by apply list_elem_of_here.
  pose proof (crawl_all_cities_file steady_world empty_fs ha_noi M I) as H.
  rewrite R in H. exact H.
Defined.

(** X25.  Saving a record the driver returned gives back the output path
    when every key of the pollutant mapping of the page is a header name,
    and raises [ValueError] when one is not. *)
Theorem save_to_csv_of_crawled now page city record clock fs :
  crawl_city_data now page city = Some record ->
  (dom (extract_pollutants page) ⊆ list_to_set headers ->
   snd (save_to_csv clock record (name city) fs) =
   Ok (output_path clock (name city))) /\
  (~ dom (extract_pollutants page) ⊆ list_to_set headers ->
   snd (save_to_csv clock record (name city) fs) = Raise ValueError).
Proof.
  intros H. pose proof (crawl_city_record_keys _ _ _ _ H) as K.
  rewrite save_to_csv_result. unfold dict_to_row. rewrite K.
  generalize (dom (extract_pollutants page)) (list_to_set headers : gset string).
  intros P F. split; intros S.
  - rewrite bool_decide_eq_true_2; [reflexivity | set_solver].
  - rewrite bool_decide_eq_false_2; [reflexivity | set_solver].
Qed.

Lemma save_to_csv_of_crawled_witness :
  snd (save_to_csv february_clock radon_record "hanoi" empty_fs) = Raise ValueError.
Proof.
  refine (proj2 (save_to_csv_of_crawled january_clock radon_page hanoi radon_record
                   february_clock empty_fs radon_page_record) _).
  apply (bool_decide_unpack _). vm_compute. exact I.
Defined.
